(** * 42 API MCP server: the manual JSON-RPC dispatcher and the token cache

    Shallow embedding of [src/src/index.ts] (second copy of the module,
    lines 530-1854): [getAccessToken], [apiRequest] and
    [SimpleHttpMcpTransport.handleRequest].

    JavaScript values are modelled by [jsval]; numbers are integers (plus
    NaN), which covers every number the dispatcher builds or reads.
    Outbound HTTP is an oracle ([world]) and every request is recorded in
    a trace, most recent event first. Exceptions (a thrown [Error] or a
    [TypeError] on a property read of [null]/[undefined]) are the [Throw]
    outcome of a small state-and-exception monad. *)

From Stdlib Require Import String Ascii ZArith List Bool Lia.
Import ListNotations.
Open Scope string_scope.
Open Scope Z_scope.
Set Warnings "-register-all".

(* ------------------------------------------------------------------ *)
(** ** JavaScript values *)

Inductive jsval : Type :=
| JUndef
| JNull
| JBool (b : bool)
| JNum (n : Z)
| JNaN
| JStr (s : string)
| JArr (l : list jsval)
| JObj (fields : list (string * jsval)).

(** JavaScript truthiness: [undefined], [null], [false], [0], [NaN] and
    [""] are falsy. *)
Definition truthy (v : jsval) : bool :=
  match v with
  | JUndef | JNull | JNaN => false
  | JBool b => b
  | JNum n => negb (n =? 0)
  | JStr s => negb (String.eqb s "")
  | JArr _ | JObj _ => true
  end.

(** [a || b] *)
Definition js_or (a b : jsval) : jsval := if truthy a then a else b.

(** [v === JStr s] *)
Definition is_str (v : jsval) (s : string) : bool :=
  match v with JStr t => String.eqb t s | _ => false end.

(** Decimal rendering of an integer, as [String(n)] does. *)
Fixpoint digits (fuel : nat) (n : Z) (acc : string) : string :=
  match fuel with
  | O => acc
  | S f =>
      let acc' := String (ascii_of_nat (48 + Z.to_nat (n mod 10))) acc in
      if n / 10 =? 0 then acc' else digits f (n / 10) acc'
  end.

Definition z_to_string (n : Z) : string :=
  let d := digits (S (Z.to_nat (Z.log2 (Z.abs n)))) (Z.abs n) "" in
  if n <? 0 then "-" ++ d else d.

Fixpoint join (sep : string) (l : list string) : string :=
  match l with
  | [] => ""
  | [x] => x
  | x :: r => x ++ sep ++ join sep r
  end.

(** Template-literal conversion [`${v}`]. *)
Fixpoint js_to_string (v : jsval) : string :=
  match v with
  | JUndef => "undefined"
  | JNull => "null"
  | JBool b => if b then "true" else "false"
  | JNum n => z_to_string n
  | JNaN => "NaN"
  | JStr s => s
  | JArr l =>
      join "," (map (fun x => match x with
                              | JUndef | JNull => ""
                              | _ => js_to_string x
                              end) l)
  | JObj _ => "[object Object]"
  end.

(** Canonical array index ["0"], ["1"], ... *)
Fixpoint parse_digits (s : string) (acc : nat) : option nat :=
  match s with
  | EmptyString => Some acc
  | String c r =>
      let n := nat_of_ascii c in
      if (48 <=? n)%nat && (n <=? 57)%nat
      then parse_digits r (acc * 10 + (n - 48))%nat
      else None
  end.

Definition array_index (k : string) : option nat :=
  match k with
  | EmptyString => None
  | String c EmptyString => parse_digits k 0
  | String c _ => if Ascii.eqb c "0"%char then None else parse_digits k 0
  end.

Fixpoint assoc (k : string) (fs : list (string * jsval)) : option jsval :=
  match fs with
  | [] => None
  | (k', v) :: r => if String.eqb k k' then Some v else assoc k r
  end.

(** Property read [v[k]] (also destructuring): [None] is the [TypeError]
    raised on [null] and [undefined]. Only own data properties are
    modelled (objects coming from [JSON.parse] have nothing else that the
    dispatcher reads). *)
Definition get_prop (v : jsval) (k : string) : option jsval :=
  match v with
  | JUndef | JNull => None
  | JObj fs => Some (match assoc k fs with Some x => x | None => JUndef end)
  | JArr l =>
      Some (if String.eqb k "length" then JNum (Z.of_nat (length l))
            else match array_index k with
                 | Some i => nth i l JUndef
                 | None => JUndef
                 end)
  | JStr s =>
      Some (if String.eqb k "length" then JNum (Z.of_nat (String.length s))
            else match array_index k with
                 | Some i => match String.get i s with
                             | Some c => JStr (String c EmptyString)
                             | None => JUndef
                             end
                 | None => JUndef
                 end)
  | JBool _ | JNum _ | JNaN => Some JUndef
  end.

(** [Number(v)] for the values the dispatcher passes to [Math.min]:
    [None] is NaN. Strings are read as optionally signed decimal
    integers. *)
Definition str_to_number (s : string) : option Z :=
  match s with
  | EmptyString => Some 0
  | String "-"%char r =>
      match r with
      | EmptyString => None
      | _ => option_map (fun n => - Z.of_nat n) (parse_digits r 0)
      end
  | _ => option_map Z.of_nat (parse_digits s 0)
  end.

Definition to_number (v : jsval) : option Z :=
  match v with
  | JUndef | JNaN => None
  | JNull => Some 0
  | JBool b => Some (if b then 1 else 0)
  | JNum n => Some n
  | JStr s => str_to_number s
  | JArr _ | JObj _ => str_to_number (js_to_string v)
  end.

(** [Math.min(v, 100)] *)
Definition js_min100 (v : jsval) : jsval :=
  match to_number v with
  | Some n => JNum (Z.min n 100)
  | None => JNaN
  end.

(* ------------------------------------------------------------------ *)
(** ** [JSON.stringify(v, null, 2)] and [encodeURIComponent] *)

Definition chr (n : nat) : string := String (ascii_of_nat n) EmptyString.
Definition nl : string := chr 10.
Definition dq : string := chr 34.

Definition hex_digit (n : nat) : string :=
  chr (if (n <? 10)%nat then 48 + n else 55 + n).

Definition hex2 (n : nat) : string :=
  hex_digit (n / 16) ++ hex_digit (n mod 16).

Definition lower_hex (n : nat) : string :=
  chr (if (n <? 10)%nat then 48 + n else 87 + n).

Definition escape_char (c : ascii) : string :=
  let n := nat_of_ascii c in
  if (n =? 34)%nat then "\" ++ dq
  else if (n =? 92)%nat then "\\"
  else if (n =? 8)%nat then "\b"
  else if (n =? 12)%nat then "\f"
  else if (n =? 10)%nat then "\n"
  else if (n =? 13)%nat then "\r"
  else if (n =? 9)%nat then "\t"
  else if (n <? 32)%nat then "\u00" ++ lower_hex (n / 16) ++ lower_hex (n mod 16)
  else String c EmptyString.

Fixpoint escape (s : string) : string :=
  match s with
  | EmptyString => EmptyString
  | String c r => escape_char c ++ escape r
  end.

Definition quote (s : string) : string := dq ++ escape s ++ dq.

(** [JSON.stringify(v, null, 2)] at indentation [ind]; [None] is the
    [undefined] it returns for [undefined]. Members whose value is
    [undefined] are skipped in objects and written [null] in arrays. *)
Fixpoint stringify_at (ind : string) (v : jsval) : option string :=
  match v with
  | JUndef => None
  | JNull | JNaN => Some "null"
  | JBool b => Some (if b then "true" else "false")
  | JNum n => Some (z_to_string n)
  | JStr s => Some (quote s)
  | JArr l =>
      let ind' := ind ++ "  " in
      let items := map (fun x => match stringify_at ind' x with
                                 | Some t => t
                                 | None => "null"
                                 end) l in
      match items with
      | [] => Some "[]"
      | _ => Some ("[" ++ nl ++ ind' ++ join ("," ++ nl ++ ind') items
                   ++ nl ++ ind ++ "]")
      end
  | JObj fs =>
      let ind' := ind ++ "  " in
      let items := flat_map (fun kv : string * jsval => let (k, x) := kv in
                                       match stringify_at ind' x with
                                       | Some t => [quote k ++ ": " ++ t]
                                       | None => []
                                       end) fs in
      match items with
      | [] => Some "{}"
      | _ => Some ("{" ++ nl ++ ind' ++ join ("," ++ nl ++ ind') items
                   ++ nl ++ ind ++ "}")
      end
  end.

(** The value put in a [text] field: the string, or [undefined]. *)
Definition json_stringify (v : jsval) : jsval :=
  match stringify_at "" v with Some t => JStr t | None => JUndef end.

(** [encodeURIComponent] on the UTF-8 bytes of a string: the unreserved
    characters [A-Z a-z 0-9 - _ . ! ~ * ' ( )] are kept, every other
    byte is written [%XX]. *)
Definition uri_unreserved (c : ascii) : bool :=
  let n := nat_of_ascii c in
  ((65 <=? n) && (n <=? 90))%nat || ((97 <=? n) && (n <=? 122))%nat
  || ((48 <=? n) && (n <=? 57))%nat
  || existsb (fun m => (n =? m)%nat) [45; 95; 46; 33; 126; 42; 39; 40; 41]%nat.

Fixpoint encodeURIComponent (s : string) : string :=
  match s with
  | EmptyString => EmptyString
  | String c r =>
      (if uri_unreserved c then String c EmptyString
       else "%" ++ hex2 (nat_of_ascii c)) ++ encodeURIComponent r
  end.

(* ------------------------------------------------------------------ *)
(** ** Outbound HTTP, the clock and the state-and-exception monad *)

Definition API_BASE : string := "https://api.intra.42.fr".

(** An HTTP reply: status, text body, and the result of [res.json()]
    ([None] when the body is not JSON, so [res.json()] rejects). *)
Record reply (A : Type) := mkReply {
  status : Z;
  body : string;
  payload : option A
}.
Arguments mkReply {A}.
Arguments status {A}.
Arguments body {A}.
Arguments payload {A}.

(** [res.ok] *)
Definition reply_ok {A} (r : reply A) : bool :=
  (200 <=? status r) && (status r <=? 299).

(** The outside world: the OAuth endpoint's reply (its JSON read as
    [{access_token: string; expires_in: number}], as the source casts
    it), the API's reply to each GET URL, and the milliseconds that pass
    during each outbound request. *)
Record world := mkWorld {
  oauth_srv : reply (string * Z);
  api_srv : string -> reply jsval;
  latency : Z
}.

Inductive event : Type :=
| EvOAuthPost
| EvApiGet (url : string) (bearer : string).

(** Process state: the single [tokenCache] entry under key
    ["access_token"] as node-cache stores it (value and expiry time [t]
    in milliseconds, [t = 0] meaning no expiry), the clock [Date.now()],
    and the trace of outbound requests, most recent first. *)
Record st := mkSt {
  cache : option (string * Z);
  clock : Z;
  trace : list event
}.

Inductive exn : Type :=
| ErrType                               (* TypeError *)
| ErrOAuth (status : Z) (body : string) (* 42 API oauth failure *)
| ErrApi (status : Z) (body : string)   (* 42 API error *)
| ErrSyntax.                            (* res.json() on a non-JSON body *)

Inductive res (A : Type) : Type :=
| Ok (a : A)
| Throw (e : exn).
Arguments Ok {A}.
Arguments Throw {A}.

Definition M (A : Type) : Type := world -> st -> res A * st.

Definition ret {A} (a : A) : M A := fun _ s => (Ok a, s).

Definition throw {A} (e : exn) : M A := fun _ s => (Throw e, s).

Definition bind {A B} (m : M A) (k : A -> M B) : M B :=
  fun w s => match m w s with
             | (Ok a, s') => k a w s'
             | (Throw e, s') => (Throw e, s')
             end.

Notation "x <- m ;; k" := (bind m (fun x => k))
  (at level 61, m at next level, right associativity).

(** [try { m } catch (e) { h e }] *)
Definition catch {A} (m : M A) (h : exn -> M A) : M A :=
  fun w s => match m w s with
             | (Ok a, s') => (Ok a, s')
             | (Throw e, s') => h e w s'
             end.

(** [v.k], throwing [TypeError] on [null] and [undefined]. *)
Definition prop (v : jsval) (k : string) : M jsval :=
  fun _ s => match get_prop v k with
             | Some x => (Ok x, s)
             | None => (Throw ErrType, s)
             end.

(** [await fetch(...)]: records the request, lets time pass, and
    returns the world's reply. *)
Definition fetch_oauth : M (reply (string * Z)) :=
  fun w s => (Ok (oauth_srv w),
              mkSt (cache s) (clock s + latency w) (EvOAuthPost :: trace s)).

Definition fetch_api (url token : string) : M (reply jsval) :=
  fun w s => (Ok (api_srv w url),
              mkSt (cache s) (clock s + latency w) (EvApiGet url token :: trace s)).

(* ------------------------------------------------------------------ *)
(** ** node-cache ([get] and [set] with a ttl in seconds) *)

(** [_check]: an entry has expired when [t <> 0 && t < Date.now()];
    [get] then deletes it and returns [undefined]. *)
Definition expired (t now : Z) : bool := negb (t =? 0) && (t <? now).

Definition cache_get : M (option string) :=
  fun _ s => match cache s with
             | Some (v, t) =>
                 if expired t (clock s)
                 then (Ok None, mkSt None (clock s) (trace s))
                 else (Ok (Some v), s)
             | None => (Ok None, s)
             end.

(** [_wrap]: a ttl of [0] means no expiry, any other ttl expires
    [ttl * 1000] ms from now. *)
Definition cache_expiry (ttl now : Z) : Z :=
  if ttl =? 0 then 0 else now + ttl * 1000.

Definition cache_set (v : string) (ttl : Z) : M unit :=
  fun _ s => (Ok tt, mkSt (Some (v, cache_expiry ttl (clock s))) (clock s) (trace s)).

(* ------------------------------------------------------------------ *)
(** ** [getAccessToken] and [apiRequest] *)

(** The client-credentials exchange that follows a cache miss. *)
Definition oauth_exchange : M string :=
  r <- fetch_oauth ;;
  if reply_ok r then
    match payload r with
    | Some (access_token, expires_in) =>
        _ <- cache_set access_token (expires_in - 60) ;;
        ret access_token
    | None => throw ErrSyntax
    end
  else throw (ErrOAuth (status r) (body r)).

(** [if (cached) return cached;]: an empty string is falsy, so it is
    not served. *)
Definition getAccessToken : M string :=
  cached <- cache_get ;;
  match cached with
  | Some v => if truthy (JStr v) then ret v else oauth_exchange
  | None => oauth_exchange
  end.

Definition apiRequest (path : string) : M jsval :=
  token <- getAccessToken ;;
  r <- fetch_api (API_BASE ++ path) token ;;
  if reply_ok r then
    match payload r with
    | Some v => ret v
    | None => throw ErrSyntax
    end
  else throw (ErrApi (status r) (body r)).

(* ------------------------------------------------------------------ *)
(** ** Response envelopes *)

Definition error_resp (code : Z) (message : string) (id : jsval) : jsval :=
  JObj [("jsonrpc", JStr "2.0");
        ("error", JObj [("code", JNum code); ("message", JStr message)]);
        ("id", id)].

Definition result_resp (result : jsval) (id : jsval) : jsval :=
  JObj [("jsonrpc", JStr "2.0"); ("result", result); ("id", id)].

(** [{ content: [{ type: 'text', text }] }] *)
Definition text_content (text : jsval) : jsval :=
  JObj [("content", JArr [JObj [("type", JStr "text"); ("text", text)]])].

(* ------------------------------------------------------------------ *)
(** ** The [tools/call] cases

    Each case of the inner [switch (name)] computes the [text] of its
    single content item and then returns
    [{jsonrpc: '2.0', result: {content: [{type: 'text', text}]}, id}];
    [tool_case] is that computation, the shared wrapping is done by the
    dispatcher. *)

(** [`${s}`] *)
Definition str (v : jsval) : string := js_to_string v.

Definition searchUsers (args : jsval) : M jsval :=
  q <- prop args "query" ;;
  users <- apiRequest ("/v2/users?filter[login]=" ++ encodeURIComponent (str q)
                       ++ "&page[size]=5") ;;
  ret (json_stringify users).

Definition getCursusLevel (args : jsval) : M jsval :=
  userId <- prop args "userId" ;;
  cursusId <- prop args "cursusId" ;;
  cursusUsers <- apiRequest ("/v2/users/" ++ str userId
                             ++ "/cursus_users?filter[cursus_id]="
                             ++ str (js_or cursusId (JNum 21))) ;;
  len <- prop cursusUsers "length" ;;
  if truthy len then
    first <- prop cursusUsers "0" ;;
    level <- prop first "level" ;;
    cursusId' <- prop args "cursusId" ;;
    ret (JStr ("Level " ++ str level ++ " in cursus "
               ++ str (js_or cursusId' (JNum 21))))
  else ret (JStr "User not enrolled in this cursus.").

Definition getUserProjects (args : jsval) : M jsval :=
  userId <- prop args "userId" ;;
  cursusId <- prop args "cursusId" ;;
  let url := "/v2/users/" ++ str userId ++ "/projects_users" in
  let url := if truthy cursusId then url ++ "?filter[cursus_id]=" ++ str cursusId
             else url in
  projects <- apiRequest url ;;
  ret (json_stringify projects).

Definition getCoalition (args : jsval) : M jsval :=
  userId <- prop args "userId" ;;
  coalitions <- apiRequest ("/v2/users/" ++ str userId ++ "/coalitions") ;;
  ret (json_stringify coalitions).

Definition getCampusUsers (args : jsval) : M jsval :=
  userId <- prop args "userId" ;;
  url <- (if truthy userId then ret ("/v2/users/" ++ str userId ++ "/campus_users")
          else campusId <- prop args "campusId" ;;
               ret (if truthy campusId
                    then "/v2/campus_users?filter[campus_id]=" ++ str campusId
                    else "/v2/campus_users")) ;;
  campusUsers <- apiRequest url ;;
  ret (json_stringify campusUsers).

Definition getBalances (args : jsval) : M jsval :=
  poolId <- prop args "poolId" ;;
  let url := if truthy poolId then "/v2/pools/" ++ str poolId ++ "/balances"
             else "/v2/balances" in
  balances <- apiRequest url ;;
  ret (json_stringify balances).

(** [url += '&' + filters.join('&')] when there are filters. *)
Definition add_params (url sep : string) (ps : list string) : string :=
  match ps with
  | [] => url
  | _ => url ++ sep ++ join "&" ps
  end.

Definition getClusters (args : jsval) : M jsval :=
  pageSize <- prop args "pageSize" ;;
  campusId <- prop args "campusId" ;;
  name <- prop args "name" ;;
  let url := "/v2/clusters?page[size]=" ++ str (js_or pageSize (JNum 30)) in
  let filters :=
    app (if truthy campusId then ["filter[campus_id]=" ++ str campusId] else [])
        (if truthy name then ["filter[name]=" ++ encodeURIComponent (str name)]
        else []) in
  clusters <- apiRequest (add_params url "&" filters) ;;
  ret (json_stringify clusters).

Definition getLocations (args : jsval) : M jsval :=
  pageSize <- prop args "pageSize" ;;
  campusId <- prop args "campusId" ;;
  active <- prop args "active" ;;
  host <- prop args "host" ;;
  let ps := str (js_or pageSize (JNum 100)) in
  let url := if truthy campusId
             then "/v2/campus/" ++ str campusId ++ "/locations?page[size]=" ++ ps
             else "/v2/locations?page[size]=" ++ ps in
  let filters :=
    (* [args.active !== false] *)
    app (match active with JBool false => [] | _ => ["filter[active]=true"] end)
        (if truthy host then ["filter[host]=" ++ encodeURIComponent (str host)]
        else []) in
  locations <- apiRequest (add_params url "&" filters) ;;
  ret (json_stringify locations).

Definition getAttachments (args : jsval) : M jsval :=
  projectSessionId <- prop args "projectSessionId" ;;
  url <- (if truthy projectSessionId
          then ret ("/v2/project_sessions/" ++ str projectSessionId ++ "/attachments")
          else projectId <- prop args "projectId" ;;
               ret (if truthy projectId
                    then "/v2/projects/" ++ str projectId ++ "/attachments"
                    else "/v2/attachments")) ;;
  pageSize <- prop args "pageSize" ;;
  sort <- prop args "sort" ;;
  let ps := app ["page[size]=" ++ str (js_min100 (js_or pageSize (JNum 30)))]
                (if truthy sort then ["sort=" ++ encodeURIComponent (str sort)] else []) in
  attachments <- apiRequest (add_params url "?" ps) ;;
  ret (json_stringify attachments).

Definition getAttachment (args : jsval) : M jsval :=
  projectSessionId <- prop args "projectSessionId" ;;
  attachmentId <- prop args "attachmentId" ;;
  let url := if truthy projectSessionId
             then "/v2/project_sessions/" ++ str projectSessionId ++ "/attachments/"
                  ++ str attachmentId
             else "/v2/attachments/" ++ str attachmentId in
  attachment <- apiRequest url ;;
  ret (json_stringify attachment).

Definition getProjects (args : jsval) : M jsval :=
  cursusId <- prop args "cursusId" ;;
  url <- (if truthy cursusId then ret ("/v2/cursus/" ++ str cursusId ++ "/projects")
          else projectId <- prop args "projectId" ;;
               ret (if truthy projectId
                    then "/v2/projects/" ++ str projectId ++ "/projects"
                    else "/v2/projects")) ;;
  pageSize <- prop args "pageSize" ;;
  sort <- prop args "sort" ;;
  filter <- prop args "filter" ;;
  let ps := app ["page[size]=" ++ str (js_min100 (js_or pageSize (JNum 30)))]
           (app (if truthy sort then ["sort=" ++ encodeURIComponent (str sort)] else [])
                (if truthy filter
                 then ["filter[" ++ encodeURIComponent (str filter) ++ "]=true"]
                 else [])) in
  projectsList <- apiRequest (add_params url "?" ps) ;;
  ret (json_stringify projectsList).

Definition getProject (args : jsval) : M jsval :=
  projectId <- prop args "projectId" ;;
  projectDetail <- apiRequest ("/v2/projects/" ++ str projectId) ;;
  ret (json_stringify projectDetail).

Definition getMyProjects (args : jsval) : M jsval :=
  pageSize <- prop args "pageSize" ;;
  cursusId <- prop args "cursusId" ;;
  sort <- prop args "sort" ;;
  let ps := app ["page[size]=" ++ str (js_min100 (js_or pageSize (JNum 30)))]
           (app (if truthy cursusId then ["cursus_id=" ++ str cursusId] else [])
                (if truthy sort then ["sort=" ++ encodeURIComponent (str sort)] else [])) in
  myProjects <- apiRequest (add_params "/v2/me/projects" "?" ps) ;;
  ret (json_stringify myProjects).

(** The inner [switch (name)] of [tools/call]: [None] is its [default]
    case. The comparison is [===], so only a string can match. *)
Definition tool_case (name : jsval) : option (jsval -> M jsval) :=
  match name with
  | JStr n =>
      if String.eqb n "searchUsers" then Some searchUsers
      else if String.eqb n "getCursusLevel" then Some getCursusLevel
      else if String.eqb n "getUserProjects" then Some getUserProjects
      else if String.eqb n "getCoalition" then Some getCoalition
      else if String.eqb n "getCampusUsers" then Some getCampusUsers
      else if String.eqb n "getBalances" then Some getBalances
      else if String.eqb n "getClusters" then Some getClusters
      else if String.eqb n "getLocations" then Some getLocations
      else if String.eqb n "getAttachments" then Some getAttachments
      else if String.eqb n "getAttachment" then Some getAttachment
      else if String.eqb n "getProjects" then Some getProjects
      else if String.eqb n "getProject" then Some getProject
      else if String.eqb n "getMyProjects" then Some getMyProjects
      else None
  | _ => None
  end.

(* ------------------------------------------------------------------ *)
(** ** The fixed payloads of [initialize], [tools/list], [resources/list] *)

Definition initialize_result : jsval :=
  JObj [("protocolVersion", JStr "2024-11-05");
        ("capabilities",
          JObj [("tools", JObj [("listChanged", JBool true)]);
                ("resources", JObj [("subscribe", JBool true);
                                    ("listChanged", JBool true)])]);
        ("serverInfo", JObj [("name", JStr "42-api-server");
                             ("version", JStr "0.1.5")])].

(** [{ type, description }] and [{ type, description, default }] *)
Definition p_typed (ty desc : string) : jsval :=
  JObj [("type", JStr ty); ("description", JStr desc)].
Definition p_default (ty desc : string) (d : jsval) : jsval :=
  JObj [("type", JStr ty); ("description", JStr desc); ("default", d)].

Definition tool_entry (name desc : string) (props : list (string * jsval))
    (required : option (list string)) : jsval :=
  JObj [("name", JStr name); ("description", JStr desc);
        ("inputSchema",
          JObj (app [("type", JStr "object"); ("properties", JObj props)]
                    (match required with
                     | Some r => [("required", JArr (map JStr r))]
                     | None => []
                     end)))].

Definition tools_list : list jsval := [
  tool_entry "searchUsers"
    "Find 42 users by a case-insensitive login substring (max 5 results)"
    [("query", JObj [("type", JStr "string");
                     ("description", JStr "Search query for user login");
                     ("minLength", JNum 2); ("maxLength", JNum 30)])]
    (Some ["query"]);
  tool_entry "getCursusLevel" "Returns the level of a user in a specific cursus"
    [("userId", p_typed "number" "42 user ID");
     ("cursusId", p_default "number" "Cursus ID (default: 21 for 42cursus)" (JNum 21))]
    (Some ["userId"]);
  tool_entry "getUserProjects" "Retrieve all projects for a specific user"
    [("userId", p_typed "number" "42 user ID");
     ("cursusId", p_typed "number" "Filter by cursus ID (optional)")]
    (Some ["userId"]);
  tool_entry "getCoalition" "Get coalition information for a user"
    [("userId", p_typed "number" "42 user ID")]
    (Some ["userId"]);
  tool_entry "getCampusUsers" "Retrieve campus-user associations by campusId or userId"
    [("campusId", p_typed "number" "Campus ID");
     ("userId", p_typed "number" "User ID")]
    None;
  tool_entry "getBalances"
    "Retrieve balances globally or for a specific pool (requires Advanced tutor role)"
    [("poolId", p_typed "number" "Pool ID")]
    None;
  tool_entry "getClusters"
    "Retrieve clusters with optional campusId and/or name filter (requires Basic staff role)"
    [("campusId", p_typed "number" "Campus ID");
     ("name", p_typed "string" "Substring of cluster name");
     ("pageSize", p_default "number" "Page size (default 30)" (JNum 30))]
    None;
  tool_entry "getLocations"
    "Retrieve user locations (seats) with optional campus, host, and activity filters"
    [("campusId", p_typed "number" "Campus ID");
     ("active", p_default "boolean" "Filter for active (currently sitting) users only"
                  (JBool true));
     ("host", p_typed "string" "Specific host/computer name");
     ("pageSize", p_default "number" "Page size (default 100)" (JNum 100))]
    None;
  tool_entry "getAttachments"
    "Retrieve attachments (PDFs, videos, links) with optional project filters"
    [("projectId", p_typed "number" "Project ID to filter attachments");
     ("projectSessionId", p_typed "number" "Project session ID to filter attachments");
     ("pageSize", p_default "number" "Page size (default 30, max 100)" (JNum 30));
     ("sort", p_typed "string" "Sort field (id, created_at, updated_at, etc.)")]
    None;
  tool_entry "getAttachment"
    "Get detailed information about a specific attachment including PDF URLs"
    [("attachmentId", p_typed "number" "Attachment ID");
     ("projectSessionId", p_typed "number"
                            "Project session ID (if accessing via project session)")]
    (Some ["attachmentId"]);
  tool_entry "getProjects" "Retrieve projects with optional cursus or project filters"
    [("cursusId", p_typed "number" "Cursus ID to filter projects");
     ("projectId", p_typed "number" "Parent project ID to filter child projects");
     ("pageSize", p_default "number" "Page size (default 30, max 100)" (JNum 30));
     ("sort", p_typed "string" "Sort field (id, name, created_at, position, etc.)");
     ("filter", p_typed "string" ("Filter field and value (e.g., " ++ dq ++ "exam" ++ dq
                                  ++ " for exam projects)"))]
    None;
  tool_entry "getProject" "Get detailed information about a specific project"
    [("projectId", p_typed "number" "Project ID")]
    (Some ["projectId"]);
  tool_entry "getMyProjects" "Get all projects for the current authenticated user"
    [("cursusId", p_typed "number" "Cursus ID to filter projects");
     ("pageSize", p_default "number" "Page size (default 30, max 100)" (JNum 30));
     ("sort", p_typed "string" "Sort field (id, name, created_at, position, etc.)")]
    None
].

Definition resource_entry (uri name desc : string) : jsval :=
  JObj [("uri", JStr uri); ("name", JStr name); ("description", JStr desc);
        ("mimeType", JStr "application/json")].

Definition resources_list : list jsval := [
  resource_entry "42://me" "My 42 Profile" "Your own user object from 42 API";
  resource_entry "42://campus" "42 Campus List" "List of all 42 campuses worldwide";
  resource_entry "42://attachments" "All Attachments"
    "List of all attachments (PDFs, videos, links) in the system";
  resource_entry "42://projects" "All Projects" "List of all projects in the system";
  resource_entry "42://me/projects" "My Projects"
    "List of projects for the current authenticated user"
].

(* ------------------------------------------------------------------ *)
(** ** [SimpleHttpMcpTransport.handleRequest] *)

(** The body of the [try]: [switch (method)]. *)
Definition dispatch (method params id : jsval) : M jsval :=
  if is_str method "initialize" then ret (result_resp initialize_result id)
  else if is_str method "tools/list" then
    ret (result_resp (JObj [("tools", JArr tools_list)]) id)
  else if is_str method "tools/call" then
    (* const { name, arguments: args } = params; *)
    name <- prop params "name" ;;
    args <- prop params "arguments" ;;
    match tool_case name with
    | Some run => text <- run args ;; ret (result_resp (text_content text) id)
    | None => ret (error_resp (-32601) "Method not found" id)
    end
  else if is_str method "resources/list" then
    ret (result_resp (JObj [("resources", JArr resources_list)]) id)
  else ret (error_resp (-32601) "Method not found" id).

Definition handleRequest (requestBody : jsval) : M jsval :=
  (* const { jsonrpc, method, params, id } = requestBody; *)
  jsonrpc <- prop requestBody "jsonrpc" ;;
  method <- prop requestBody "method" ;;
  params <- prop requestBody "params" ;;
  id <- prop requestBody "id" ;;
  if negb (is_str jsonrpc "2.0") then
    ret (error_resp (-32600) "Invalid Request" (js_or id JNull))
  else
    catch (dispatch method params id)
          (fun _ => ret (error_resp (-32603) "Internal error" id)).

(* ------------------------------------------------------------------ *)
(** ** Observations on responses and requests *)

Definition nullish (v : jsval) : bool :=
  match v with JUndef | JNull => true | _ => false end.

(** The value a property read gives on a non-nullish value. *)
Definition fld (v : jsval) (k : string) : jsval :=
  match get_prop v k with Some x => x | None => JUndef end.

Definition has_field (v : jsval) (k : string) : bool :=
  match v with
  | JObj fs => match assoc k fs with Some _ => true | None => false end
  | _ => false
  end.

(** The [JsonRpcResponse] shape: [jsonrpc: "2.0"], exactly one of
    [result] and [error], an [error] carrying a numeric [code] and a
    string [message], and an [id] member. *)
Definition response_shape (r : jsval) : bool :=
  is_str (fld r "jsonrpc") "2.0"
  && xorb (has_field r "result") (has_field r "error")
  && (if has_field r "error" then
        match fld (fld r "error") "code", fld (fld r "error") "message" with
        | JNum _, JStr _ => true
        | _, _ => false
        end
      else true)
  && has_field r "id".

(** A [tools/call] request for tool [name]. *)
Definition call_req (name : string) (args id : jsval) : jsval :=
  JObj [("jsonrpc", JStr "2.0"); ("method", JStr "tools/call");
        ("params", JObj [("name", JStr name); ("arguments", args)]);
        ("id", id)].

(** The cache holds a token that [getAccessToken] serves without I/O. *)
Definition token_cached (s : st) : bool :=
  match cache s with
  | Some (v, t) => negb (expired t (clock s)) && truthy (JStr v)
  | None => false
  end.

Definition is_api_get (e : event) : bool :=
  match e with EvApiGet _ _ => true | EvOAuthPost => false end.

(** Every dispatcher return is a result or an error envelope with [id]. *)
Definition resp_form (id r : jsval) : Prop :=
  (exists x, r = result_resp x id) \/ (exists c m, r = error_resp c m id).

(* ------------------------------------------------------------------ *)
(** ** Basic lemmas *)

Lemma get_prop_some (v : jsval) (k : string) :
  nullish v = false -> get_prop v k = Some (fld v k).
Proof. unfold fld; destruct v; simpl; congruence. Qed.

Lemma get_prop_nullish (v : jsval) (k : string) :
  nullish v = true -> get_prop v k = None.
Proof. destruct v; simpl; congruence. Qed.

Lemma prop_nonnull (v : jsval) (k : string) w s :
  nullish v = false -> prop v k w s = (Ok (fld v k), s).
Proof. intro H. unfold prop. now rewrite (get_prop_some v k H). Qed.

Lemma resp_form_shape (id r : jsval) :
  resp_form id r -> response_shape r = true.
Proof. intros [[x ->] | (c & m & ->)]; reflexivity. Qed.

Lemma resp_form_id (id r : jsval) :
  resp_form id r -> get_prop r "id" = Some id.
Proof. intros [[x ->] | (c & m & ->)]; reflexivity. Qed.

Lemma dispatch_form (method params id : jsval) w s :
  match dispatch method params id w s with
  | (Ok r, _) => resp_form id r
  | (Throw _, _) => True
  end.
Proof.
  unfold dispatch.
  destruct (is_str method "initialize"); [left; eexists; reflexivity|].
  destruct (is_str method "tools/list"); [left; eexists; reflexivity|].
  destruct (is_str method "tools/call").
  - unfold bind, prop.
    destruct (get_prop params "name") as [name|]; [|exact I].
    destruct (get_prop params "arguments") as [args|]; [|exact I].
    destruct (tool_case name) as [run|].
    + destruct (run args w s) as [[t|e] s']; [left; eexists; reflexivity | exact I].
    + right; do 2 eexists; reflexivity.
  - destruct (is_str method "resources/list"); [left; eexists; reflexivity|].
    right; do 2 eexists; reflexivity.
Qed.

(** [handleRequest] on a non-nullish body, once the destructuring is
    done. *)
Lemma handleRequest_eq (body : jsval) w s :
  nullish body = false ->
  handleRequest body w s =
  (if negb (is_str (fld body "jsonrpc") "2.0") then
     (Ok (error_resp (-32600) "Invalid Request" (js_or (fld body "id") JNull)), s)
   else
     catch (dispatch (fld body "method") (fld body "params") (fld body "id"))
           (fun _ => ret (error_resp (-32603) "Internal error" (fld body "id"))) w s).
Proof.
  intro H. unfold handleRequest, bind, prop.
  rewrite !(get_prop_some body _ H).
  destruct (is_str (fld body "jsonrpc") "2.0"); reflexivity.
Qed.

Lemma handleRequest_form (body : jsval) w s :
  nullish body = false ->
  exists r s', handleRequest body w s = (Ok r, s') /\
    resp_form (if is_str (fld body "jsonrpc") "2.0" then fld body "id"
               else js_or (fld body "id") JNull) r.
Proof.
  intro H. rewrite (handleRequest_eq body w s H).
  destruct (is_str (fld body "jsonrpc") "2.0"); simpl.
  - unfold catch.
    pose proof (dispatch_form (fld body "method") (fld body "params") (fld body "id") w s)
      as Hf.
    destruct (dispatch _ _ _ w s) as [[r|e] s'].
    + exists r, s'. split; [reflexivity | exact Hf].
    + do 2 eexists. split; [reflexivity|]. right; do 2 eexists; reflexivity.
  - do 2 eexists. split; [reflexivity|]. right; do 2 eexists; reflexivity.
Qed.

Lemma handleRequest_nullish (body : jsval) w s :
  nullish body = true -> handleRequest body w s = (Throw ErrType, s).
Proof. destruct body; try discriminate; reflexivity. Qed.

(** A body whose [jsonrpc] is not ["2.0"] is answered [-32600] with
    [id || null], before any dispatch and without I/O. *)
Lemma invalid_envelope_no_io (body : jsval) w s :
  nullish body = false -> is_str (fld body "jsonrpc") "2.0" = false ->
  handleRequest body w s =
  (Ok (error_resp (-32600) "Invalid Request" (js_or (fld body "id") JNull)), s).
Proof. intros H1 H2. rewrite (handleRequest_eq body w s H1), H2. reflexivity. Qed.

(* ------------------------------------------------------------------ *)
(** ** Concrete inputs *)

Definition upstream_users : jsval :=
  JArr [JObj [("id", JNum 1); ("login", JStr "jd"); ("level", JNum 7)]].

(** OAuth and API both answer 200. *)
Definition w_ok : world :=
  mkWorld (mkReply 200 "" (Some ("tok", 7200)))
          (fun _ => mkReply 200 "" (Some upstream_users)) 5.

(** OAuth answers 401. *)
Definition w_401 : world :=
  mkWorld (mkReply 401 "{invalid_client}" None)
          (fun _ => mkReply 200 "" (Some upstream_users)) 5.

Definition s_init : st := mkSt None 1000 [].

(* ------------------------------------------------------------------ *)
(** ** C1: envelope validation *)

(** C1 (code_bug): a body with [jsonrpc] other than ["2.0"] and the
    legal id [0] is answered [-32600] with id [null] instead of the
    request's id [0]: the source writes [id || null]. *)
Theorem C1_zero_id_becomes_null : forall w s,
  handleRequest (JObj [("jsonrpc", JStr "1.0"); ("method", JStr "initialize");
                       ("id", JNum 0)]) w s
  = (Ok (error_resp (-32600) "Invalid Request" JNull), s).
Proof. reflexivity. Qed.

(* ------------------------------------------------------------------ *)
(** ** C2: the echoed id *)

(** C2 (counterexample): the malformed id [true] of a ["2.0"] request
    is echoed as is, not replaced by [null]. *)
Lemma C2_malformed_id_echoed :
  handleRequest (JObj [("jsonrpc", JStr "2.0"); ("method", JStr "initialize");
                       ("id", JBool true)]) w_ok s_init
  = (Ok (result_resp initialize_result (JBool true)), s_init).
Proof. reflexivity. Qed.

(** C2 (amended): for every body that is not null or undefined,
    [handleRequest] answers; on a ["2.0"] envelope the response carries
    the request's id value unchanged (whatever its type, [undefined] when
    absent); on any other envelope it carries the id when it is truthy
    and [null] when it is absent. *)
Theorem C2_response_id (w : world) (s : st) (body : jsval) :
  nullish body = false ->
  exists r s', handleRequest body w s = (Ok r, s') /\
    (is_str (fld body "jsonrpc") "2.0" = true ->
       get_prop r "id" = Some (fld body "id")) /\
    (is_str (fld body "jsonrpc") "2.0" = false -> truthy (fld body "id") = true ->
       get_prop r "id" = Some (fld body "id")) /\
    (is_str (fld body "jsonrpc") "2.0" = false -> fld body "id" = JUndef ->
       get_prop r "id" = Some JNull).
Proof.
  intro H.
  destruct (handleRequest_form body w s H) as (r & s' & Hr & Hf).
  exists r, s'. split; [exact Hr|].
  apply resp_form_id in Hf.
  destruct (is_str (fld body "jsonrpc") "2.0").
  - repeat split; intros; try discriminate; exact Hf.
  - repeat split; intros; try discriminate.
    + unfold js_or in Hf. now rewrite H1 in Hf.
    + rewrite H1 in Hf. exact Hf.
Qed.

Lemma C2_response_id_witness :
  nullish (JObj [("jsonrpc", JStr "2.0"); ("method", JStr "tools/list");
                 ("id", JStr "a")]) = false /\
  exists r s', handleRequest (JObj [("jsonrpc", JStr "2.0"); ("method", JStr "tools/list");
                                    ("id", JStr "a")]) w_ok s_init = (Ok r, s') /\
               get_prop r "id" = Some (JStr "a").
Proof.
  split; [reflexivity|].
  destruct (C2_response_id w_ok s_init
              (JObj [("jsonrpc", JStr "2.0"); ("method", JStr "tools/list");
                     ("id", JStr "a")]) eq_refl) as (r & s' & Hr & H1 & _).
  exists r, s'. split; [exact Hr | exact (H1 eq_refl)].
Defined.

(* ------------------------------------------------------------------ *)
(** ** C8: every answer is a well-formed response *)

(** C8 (counterexample): the body [null] is not answered: the
    destructuring before the [try] throws a [TypeError]. *)
Lemma C8_null_body_throws :
  handleRequest JNull w_ok s_init = (Throw ErrType, s_init).
Proof. reflexivity. Qed.

(** C8 (amended): on every body that is not null or undefined,
    [handleRequest] answers with a response that has [jsonrpc: "2.0"],
    exactly one of [result] and [error] (an error with numeric [code] and
    string [message]) and an [id]; on [null] or [undefined] it throws a
    [TypeError]. *)
Theorem C8_response_shape (w : world) (s : st) (body : jsval) :
  (nullish body = false ->
   exists r s', handleRequest body w s = (Ok r, s') /\ response_shape r = true) /\
  (nullish body = true -> handleRequest body w s = (Throw ErrType, s)).
Proof.
  split.
  - intro H. destruct (handleRequest_form body w s H) as (r & s' & Hr & Hf).
    exists r, s'. split; [exact Hr | exact (resp_form_shape _ _ Hf)].
  - apply handleRequest_nullish.
Qed.

Lemma C8_response_shape_witness :
  exists r s', handleRequest (JArr []) w_ok s_init = (Ok r, s') /\
               response_shape r = true.
Proof. exact (proj1 (C8_response_shape w_ok s_init (JArr [])) eq_refl). Defined.

(* ------------------------------------------------------------------ *)
(** ** C4: the token cache *)

Lemma getAccessToken_hit (w : world) (s : st) (tok : string) (t : Z) :
  cache s = Some (tok, t) -> tok <> "" -> (t = 0 \/ clock s <= t) ->
  getAccessToken w s = (Ok tok, s).
Proof.
  intros Hc Hne Ht.
  unfold getAccessToken, bind, cache_get. rewrite Hc.
  assert (He : expired t (clock s) = false).
  { unfold expired. destruct Ht as [-> | Ht]; [reflexivity|].
    destruct (t =? 0); [reflexivity|]. simpl. apply Z.ltb_ge. lia. }
  rewrite He. simpl.
  destruct (String.eqb_spec tok ""); [contradiction | reflexivity].
Qed.

(** On a miss, [getAccessToken] is one exchange after [cache_get],
    which leaves the clock and the trace alone. *)
Lemma getAccessToken_miss (w : world) (s : st) :
  token_cached s = false ->
  getAccessToken w s = oauth_exchange w (mkSt (if token_cached s then cache s else
                                                 match cache s with
                                                 | Some (v, t) => if expired t (clock s)
                                                                  then None else cache s
                                                 | None => None
                                                 end) (clock s) (trace s)).
Proof.
  unfold token_cached, getAccessToken, bind, cache_get.
  destruct s as [c now tr]; simpl.
  destruct c as [[v t]|]; simpl; intro H; [|reflexivity].
  destruct (expired t now); simpl in *; [reflexivity|].
  rewrite H. reflexivity.
Qed.

Lemma oauth_exchange_ok (w : world) (s : st) (tok : string) (e : Z) :
  reply_ok (oauth_srv w) = true -> payload (oauth_srv w) = Some (tok, e) ->
  oauth_exchange w s =
  (Ok tok, mkSt (Some (tok, cache_expiry (e - 60) (clock s + latency w)))
                (clock s + latency w) (EvOAuthPost :: trace s)).
Proof.
  intros H1 H2. unfold oauth_exchange, bind, fetch_oauth. simpl.
  rewrite H1, H2. reflexivity.
Qed.

Lemma oauth_exchange_one_post (w : world) (s : st) :
  exists r s', oauth_exchange w s = (r, s') /\ trace s' = EvOAuthPost :: trace s
               /\ clock s' = clock s + latency w.
Proof.
  unfold oauth_exchange, bind, fetch_oauth. simpl.
  destruct (reply_ok (oauth_srv w)).
  - destruct (payload (oauth_srv w)) as [[tok e]|]; simpl;
      do 2 eexists; repeat split.
  - simpl; do 2 eexists; repeat split.
Qed.

(** A miss performs exactly one exchange, whatever its outcome. *)
Lemma getAccessToken_miss_one_post (w : world) (s : st) :
  token_cached s = false ->
  exists r s', getAccessToken w s = (r, s') /\ trace s' = EvOAuthPost :: trace s.
Proof.
  intro H. rewrite (getAccessToken_miss w s H).
  match goal with |- context [oauth_exchange w ?s0] =>
    destruct (oauth_exchange_one_post w s0) as (r & s' & -> & Ht & _) end.
  exists r, s'. split; [reflexivity | exact Ht].
Qed.

(** Starting without a servable token, a successful exchange returning
    a non-empty [access_token] and [expires_in <> 60] stores the token
    with expiry [now + (expires_in - 60) * 1000] ms ([now] read after
    the exchange) and returns it after exactly one exchange; a second
    call at any time up to that expiry returns the same token with no
    I/O; and whenever the stored entry has expired (non-zero expiry
    earlier than now), the next call performs exactly one exchange. *)
Lemma token_cache_window (w : world) (s : st) (tok : string) (expires_in : Z) :
  token_cached s = false ->
  reply_ok (oauth_srv w) = true ->
  payload (oauth_srv w) = Some (tok, expires_in) ->
  tok <> "" -> expires_in <> 60 ->
  let now := clock s + latency w in
  let s1 := mkSt (Some (tok, now + (expires_in - 60) * 1000)) now (EvOAuthPost :: trace s) in
  getAccessToken w s = (Ok tok, s1) /\
  (forall (w' : world) (t2 : Z), t2 <= now + (expires_in - 60) * 1000 ->
     getAccessToken w' (mkSt (cache s1) t2 (trace s1))
     = (Ok tok, mkSt (cache s1) t2 (trace s1))) /\
  (forall (w' : world) (s' : st) (v : string) (t : Z),
     cache s' = Some (v, t) -> t <> 0 -> t < clock s' ->
     exists r s'', getAccessToken w' s' = (r, s'') /\ trace s'' = EvOAuthPost :: trace s').
Proof.
  intros Hmiss Hok Hpay Hne H60 now s1.
  split; [|split].
  - rewrite (getAccessToken_miss w s Hmiss), (oauth_exchange_ok _ _ tok expires_in Hok Hpay).
    simpl. unfold cache_expiry.
    destruct (Z.eqb_spec (expires_in - 60) 0); [lia | reflexivity].
  - intros w' t2 Ht2.
    apply (getAccessToken_hit w' _ tok (now + (expires_in - 60) * 1000));
      [reflexivity | exact Hne | right; exact Ht2].
  - intros w' s' v t Hc Ht0 Hlt.
    apply getAccessToken_miss_one_post.
    unfold token_cached. rewrite Hc. unfold expired.
    destruct (Z.eqb_spec t 0); [contradiction|].
    destruct (Z.ltb_spec t (clock s')); [reflexivity | lia].
Qed.

Definition w_expires_60 : world :=
  mkWorld (mkReply 200 "" (Some ("tok", 60)))
          (fun _ => mkReply 200 "" (Some upstream_users)) 5.

(** C4 (code bug): when the exchange returns [expires_in = 60], the ttl
    [expires_in - 60] is [0], which node-cache reads as "no expiry": the
    token is stored with expiry [0] instead of [now], and every later
    call, however late, is served from the cache without a new
    exchange. *)
Theorem C4_ttl_zero_never_expires (w : world) (s : st) (tok : string) :
  token_cached s = false ->
  reply_ok (oauth_srv w) = true ->
  payload (oauth_srv w) = Some (tok, 60) ->
  tok <> "" ->
  getAccessToken w s
  = (Ok tok, mkSt (Some (tok, 0)) (clock s + latency w) (EvOAuthPost :: trace s)) /\
  (forall (w' : world) (t2 : Z) (tr : list event),
     getAccessToken w' (mkSt (Some (tok, 0)) t2 tr) = (Ok tok, mkSt (Some (tok, 0)) t2 tr)).
Proof.
  intros Hmiss Hok Hpay Hne. split.
  - rewrite (getAccessToken_miss w s Hmiss), (oauth_exchange_ok _ _ tok 60 Hok Hpay).
    reflexivity.
  - intros w' t2 tr.
    apply (getAccessToken_hit w' _ tok 0); [reflexivity | exact Hne | left; reflexivity].
Qed.

Lemma C4_ttl_zero_never_expires_witness :
  getAccessToken w_expires_60 (mkSt (Some ("tok", 0)) (1005 + 3600000) [EvOAuthPost])
  = (Ok "tok", mkSt (Some ("tok", 0)) (1005 + 3600000) [EvOAuthPost]).
Proof.
  exact (proj2 (C4_ttl_zero_never_expires w_expires_60 s_init "tok" eq_refl eq_refl eq_refl
                  ltac:(discriminate)) w_ok (1005 + 3600000) [EvOAuthPost]).
Defined.

(* ------------------------------------------------------------------ *)
(** ** The tool cases when the OAuth endpoint fails *)

Lemma tool_case_cases (n : string) (run : jsval -> M jsval) :
  tool_case (JStr n) = Some run ->
  In run [searchUsers; getCursusLevel; getUserProjects; getCoalition;
          getCampusUsers; getBalances; getClusters; getLocations;
          getAttachments; getAttachment; getProjects; getProject; getMyProjects].
Proof.
  unfold tool_case.
  repeat (destruct (String.eqb n _); [intro H; injection H as <-; simpl; tauto|]).
  discriminate.
Qed.

Section OAuthDown.
(** No servable token is cached and the OAuth endpoint answers a
    non-2xx status. *)
Variable w : world.
Variable s : st.
Hypothesis no_token : token_cached s = false.
Hypothesis oauth_down : reply_ok (oauth_srv w) = false.

(** [m] throws from [s] and still leaves no servable token. *)
Definition fails_clean {A} (m : M A) : Prop :=
  exists e s', m w s = (Throw e, s') /\ token_cached s' = false.

Lemma fails_clean_api (p : string) : fails_clean (apiRequest p).
Proof.
  unfold fails_clean, apiRequest.
  unfold bind at 1. rewrite (getAccessToken_miss w s no_token).
  unfold oauth_exchange, bind, fetch_oauth. simpl. rewrite oauth_down.
  do 2 eexists. split; [reflexivity|].
  revert no_token. unfold token_cached. destruct s as [[[v t]|] now tr]; simpl; [|reflexivity].
  intro H. destruct (expired t now); simpl in *; [reflexivity|].
  rewrite H. simpl. rewrite H. apply andb_false_r.
Qed.

Lemma fails_clean_bind {A B} (m : M A) (k : A -> M B) :
  fails_clean m -> fails_clean (bind m k).
Proof.
  intros (e & s' & Hm & Hs). unfold fails_clean, bind. rewrite Hm. eauto.
Qed.

Lemma fails_clean_bind_prop {B} (v : jsval) (key : string) (k : jsval -> M B) :
  nullish v = false -> fails_clean (k (fld v key)) -> fails_clean (bind (prop v key) k).
Proof. intros Hv H. unfold fails_clean, bind. now rewrite prop_nonnull. Qed.

Lemma fails_clean_bind_prop_null {B} (v : jsval) (key : string) (k : jsval -> M B) :
  nullish v = true -> fails_clean (bind (prop v key) k).
Proof.
  intro Hv. unfold fails_clean, bind, prop. rewrite (get_prop_nullish v key Hv). eauto.
Qed.

Lemma fails_clean_bind_ret {A B} (a : A) (k : A -> M B) :
  fails_clean (k a) -> fails_clean (bind (ret a) k).
Proof. exact (fun H => H). Qed.

Lemma fails_clean_bind_assoc {A B C} (m : M A) (f : A -> M B) (k : B -> M C) :
  fails_clean (bind m (fun a => bind (f a) k)) -> fails_clean (bind (bind m f) k).
Proof.
  unfold fails_clean, bind. destruct (m w s) as [[a|e] s']; [|exact (fun H => H)].
  destruct (f a w s') as [[b|e'] s'']; exact (fun H => H).
Qed.

Ltac clean_fail :=
  repeat (cbv beta zeta;
          first [ apply fails_clean_bind; apply fails_clean_api
                | apply fails_clean_bind_prop; [assumption|]
                | apply fails_clean_bind_ret
                | apply fails_clean_bind_assoc
                | match goal with
                  | |- fails_clean (bind (if ?b then _ else _) _) => destruct b
                  end ]).

(** Every tool case throws before answering. *)
Lemma tool_case_fails (n : string) (run : jsval -> M jsval) (args : jsval) :
  tool_case (JStr n) = Some run -> fails_clean (run args).
Proof.
  intro Hn. apply tool_case_cases in Hn. simpl in Hn.
  destruct (nullish args) eqn:Hna.
  - repeat destruct Hn as [<- | Hn]; try contradiction;
      apply fails_clean_bind_prop_null; exact Hna.
  - repeat destruct Hn as [<- | Hn]; try contradiction;
      unfold searchUsers, getCursusLevel, getUserProjects, getCoalition,
        getCampusUsers, getBalances, getClusters, getLocations,
        getAttachments, getAttachment, getProjects, getProject, getMyProjects;
      clean_fail.
Qed.
End OAuthDown.

(* ------------------------------------------------------------------ *)
(** ** C3: failure containment *)

(** A [tools/call] for tool [name], once the envelope is destructured. *)
Lemma handleRequest_call (name : string) (args id : jsval) w s :
  handleRequest (call_req name args id) w s =
  match tool_case (JStr name) with
  | Some run =>
      match run args w s with
      | (Ok t, s') => (Ok (result_resp (text_content t) id), s')
      | (Throw _, s') => (Ok (error_resp (-32603) "Internal error" id), s')
      end
  | None => (Ok (error_resp (-32601) "Method not found" id), s)
  end.
Proof.
  unfold handleRequest, call_req, catch, dispatch, bind, prop, ret. cbn -[tool_case].
  destruct (tool_case (JStr name)) as [run|]; [|reflexivity].
  destruct (run args w s) as [[t|e] s']; reflexivity.
Qed.

(** C3: on a ["2.0"] envelope, any exception raised by the routing or a
    handler becomes the response [-32603] with the fixed message
    ["Internal error"] (no status or body of the failure) and the
    request's id. In particular, when no token is cached and the OAuth
    endpoint answers a non-2xx status, every [tools/call] naming a
    registered tool is answered [-32603], no token is left cached, and
    every later request is still answered. *)
Theorem C3_internal_error (w : world) (s : st) :
  (forall (body : jsval) (e : exn) (s' : st),
     nullish body = false -> is_str (fld body "jsonrpc") "2.0" = true ->
     dispatch (fld body "method") (fld body "params") (fld body "id") w s = (Throw e, s') ->
     handleRequest body w s
     = (Ok (error_resp (-32603) "Internal error" (fld body "id")), s')) /\
  (token_cached s = false -> reply_ok (oauth_srv w) = false ->
   forall (name : string) (args id : jsval), tool_case (JStr name) <> None ->
     exists s', handleRequest (call_req name args id) w s
                = (Ok (error_resp (-32603) "Internal error" id), s') /\
       token_cached s' = false /\
       forall (w' : world) (body' : jsval), nullish body' = false ->
         exists r s'', handleRequest body' w' s' = (Ok r, s'') /\
                       response_shape r = true).
Proof.
  split.
  - intros body e s' Hn Hj Hd.
    rewrite (handleRequest_eq body w s Hn), Hj. simpl.
    unfold catch. rewrite Hd. reflexivity.
  - intros Hc Ho name args id Hn.
    rewrite handleRequest_call.
    destruct (tool_case (JStr name)) as [run|] eqn:Hr; [|contradiction].
    destruct (tool_case_fails w s Hc Ho name run args Hr) as (e & s' & -> & Hs').
    exists s'. split; [reflexivity|]. split; [exact Hs'|].
    intros w' body' Hb.
    destruct (handleRequest_form body' w' s' Hb) as (r & s'' & Hr' & Hf).
    exists r, s''. split; [exact Hr' | exact (resp_form_shape _ _ Hf)].
Qed.

Lemma C3_internal_error_witness :
  token_cached s_init = false /\ reply_ok (oauth_srv w_401) = false /\
  exists s', handleRequest (call_req "searchUsers" (JObj [("query", JStr "jd")]) (JNum 4))
               w_401 s_init = (Ok (error_resp (-32603) "Internal error" (JNum 4)), s').
Proof.
  split; [reflexivity|]. split; [reflexivity|].
  destruct (proj2 (C3_internal_error w_401 s_init) eq_refl eq_refl "searchUsers"
              (JObj [("query", JStr "jd")]) (JNum 4) ltac:(discriminate))
    as (s' & H & _).
  exists s'. exact H.
Defined.

(* ------------------------------------------------------------------ *)
(** ** Outbound requests of [getAccessToken] and [apiRequest] *)

(** The events [m] adds to the trace satisfy [P], whatever [m] returns. *)
Definition emits (P : event -> Prop) {A} (m : M A) (w : world) (s : st) : Prop :=
  exists evs, trace (snd (m w s)) = (evs ++ trace s)%list /\ Forall P evs.

Definition not_get (e : event) : Prop := is_api_get e = false.

Lemma cache_get_trace w s : trace (snd (cache_get w s)) = trace s.
Proof.
  unfold cache_get. destruct (cache s) as [[v t]|]; [|reflexivity].
  destruct (expired t (clock s)); reflexivity.
Qed.

Lemma getAccessToken_emits w s : emits not_get getAccessToken w s.
Proof.
  unfold emits, getAccessToken, bind.
  pose proof (cache_get_trace w s) as Ht.
  destruct (cache_get w s) as [[c|e] s1]; simpl in Ht.
  - assert (Hx : exists evs, trace (snd (oauth_exchange w s1)) = (evs ++ trace s)%list
                             /\ Forall not_get evs).
    { destruct (oauth_exchange_one_post w s1) as (r & s2 & Hr & Htr & _).
      exists [EvOAuthPost]. rewrite Hr. simpl. rewrite Htr, Ht. split; [reflexivity|].
      repeat constructor. }
    destruct c as [v|]; [destruct (truthy (JStr v))|]; try exact Hx.
    exists []. simpl. rewrite Ht. split; [reflexivity | constructor].
  - exists []. simpl. rewrite Ht. split; [reflexivity | constructor].
Qed.

(** [apiRequest p] issues GETs to [API_BASE ++ p] only. *)
Lemma apiRequest_emits (p : string) w s :
  emits (fun e => is_api_get e = true -> exists b, e = EvApiGet (API_BASE ++ p) b)
        (apiRequest p) w s.
Proof.
  unfold emits, apiRequest. unfold bind at 1.
  destruct (getAccessToken_emits w s) as (evs & Ht & Hf).
  destruct (getAccessToken w s) as [[tk|e] s1]; simpl in Ht.
  - unfold bind, fetch_api. cbn -[API_BASE].
    exists (EvApiGet (API_BASE ++ p) tk :: evs).
    assert (Hf' : Forall (fun e => is_api_get e = true ->
                                   exists b, e = EvApiGet (API_BASE ++ p) b)
                         (EvApiGet (API_BASE ++ p) tk :: evs)).
    { constructor; [eauto|].
      eapply Forall_impl; [|exact Hf]. unfold not_get. intros a Ha Hg. congruence. }
    destruct (reply_ok (api_srv w (API_BASE ++ p))).
    + destruct (payload (api_srv w (API_BASE ++ p))); cbn -[API_BASE];
        rewrite Ht; split; [reflexivity | exact Hf' | reflexivity | exact Hf'].
    + cbn -[API_BASE]; rewrite Ht; split; [reflexivity | exact Hf'].
  - exists evs. simpl. split; [exact Ht|].
    eapply Forall_impl; [|exact Hf]. unfold not_get. intros a Ha Hg. congruence.
Qed.

(** When the OAuth endpoint answers 2xx, [getAccessToken] returns a
    token and issues no GET. *)
Lemma getAccessToken_ok (w : world) (s : st) (tok : string) (e : Z) :
  reply_ok (oauth_srv w) = true -> payload (oauth_srv w) = Some (tok, e) ->
  exists tk s1 evs, getAccessToken w s = (Ok tk, s1) /\ trace s1 = (evs ++ trace s)%list /\
                    Forall not_get evs.
Proof.
  intros Ho Hp.
  destruct (token_cached s) eqn:Hc.
  - unfold token_cached in Hc.
    destruct (cache s) as [[v t]|] eqn:Hcs; [|discriminate].
    apply andb_prop in Hc as [Hx Hv].
    exists v, s, []. split; [|split; [reflexivity | constructor]].
    unfold getAccessToken, bind, cache_get. rewrite Hcs.
    apply negb_true_iff in Hx. rewrite Hx, Hv. reflexivity.
  - rewrite (getAccessToken_miss w s Hc), (oauth_exchange_ok _ _ tok e Ho Hp).
    do 3 eexists. split; [reflexivity|]. split.
    + simpl. instantiate (1 := [EvOAuthPost]). reflexivity.
    + repeat constructor.
Qed.

(** When both endpoints answer 2xx with JSON, [apiRequest p] returns the
    upstream JSON and issues exactly one GET, to [API_BASE ++ p]. *)
Lemma apiRequest_ok (p : string) (w : world) (s : st) (tok : string) (e : Z) (v : jsval) :
  reply_ok (oauth_srv w) = true -> payload (oauth_srv w) = Some (tok, e) ->
  reply_ok (api_srv w (API_BASE ++ p)) = true -> payload (api_srv w (API_BASE ++ p)) = Some v ->
  exists bearer s' evs, apiRequest p w s = (Ok v, s') /\ trace s' = (evs ++ trace s)%list /\
    filter is_api_get evs = [EvApiGet (API_BASE ++ p) bearer].
Proof.
  intros Ho Hp Ha Hv.
  destruct (getAccessToken_ok w s tok e Ho Hp) as (tk & s1 & evs & Hg & Ht & Hf).
  unfold apiRequest. unfold bind at 1. rewrite Hg.
  unfold bind, fetch_api. cbn -[API_BASE]. rewrite Ha, Hv.
  exists tk. do 2 eexists. split; [reflexivity|]. split.
  - cbn -[API_BASE]. rewrite Ht. instantiate (1 := EvApiGet (API_BASE ++ p) tk :: evs). reflexivity.
  - simpl. f_equal. clear Ht.
    induction Hf as [|x l Hx Hl IH]; [reflexivity|]. simpl. unfold not_get in Hx.
    rewrite Hx. exact IH.
Qed.

Lemma is_str_true (v : jsval) (s : string) : is_str v s = true -> v = JStr s.
Proof. destruct v; try discriminate. simpl. intro H. apply String.eqb_eq in H. now subst. Qed.

(** [tools/call] on a ["2.0"] envelope, after the outer destructuring. *)
Lemma handleRequest_tools_call (body : jsval) w s :
  nullish body = false -> is_str (fld body "jsonrpc") "2.0" = true ->
  is_str (fld body "method") "tools/call" = true ->
  handleRequest body w s =
  catch (name <- prop (fld body "params") "name" ;;
         args <- prop (fld body "params") "arguments" ;;
         match tool_case name with
         | Some run => text <- run args ;; ret (result_resp (text_content text) (fld body "id"))
         | None => ret (error_resp (-32601) "Method not found" (fld body "id"))
         end)
        (fun _ => ret (error_resp (-32603) "Internal error" (fld body "id"))) w s.
Proof.
  intros Hn Hj Hm. rewrite (handleRequest_eq body w s Hn), Hj.
  apply is_str_true in Hm. unfold dispatch. rewrite Hm. reflexivity.
Qed.

(* ------------------------------------------------------------------ *)
(** ** C5: unknown methods and tools *)

(** C5: on a ["2.0"] envelope, a method other than the four known
    ones, and a [tools/call] whose [params] is present (not null) and
    whose [params.name] is not a registered tool, are answered [-32601]
    ["Method not found"] with the request's id, without I/O. *)
Theorem C5_method_not_found (w : world) (s : st) (body : jsval) :
  nullish body = false -> is_str (fld body "jsonrpc") "2.0" = true ->
  ((forall m, In m ["initialize"; "tools/list"; "tools/call"; "resources/list"] ->
              is_str (fld body "method") m = false) ->
   handleRequest body w s
   = (Ok (error_resp (-32601) "Method not found" (fld body "id")), s)) /\
  (is_str (fld body "method") "tools/call" = true ->
   nullish (fld body "params") = false ->
   tool_case (fld (fld body "params") "name") = None ->
   handleRequest body w s
   = (Ok (error_resp (-32601) "Method not found" (fld body "id")), s)).
Proof.
  intros Hn Hj. split.
  - intro Hm. rewrite (handleRequest_eq body w s Hn), Hj. simpl.
    unfold catch, dispatch.
    rewrite !Hm by (simpl; tauto). reflexivity.
  - intros Hm Hp Ht. rewrite (handleRequest_tools_call body w s Hn Hj Hm).
    unfold catch, bind. rewrite !prop_nonnull by exact Hp. rewrite Ht. reflexivity.
Qed.

Lemma C5_method_not_found_witness :
  handleRequest (call_req "doesNotExist" (JObj []) (JNum 3)) w_ok s_init
  = (Ok (error_resp (-32601) "Method not found" (JNum 3)), s_init).
Proof.
  exact (proj2 (C5_method_not_found w_ok s_init (call_req "doesNotExist" (JObj []) (JNum 3))
                  eq_refl eq_refl) eq_refl eq_refl eq_refl).
Defined.

(* ------------------------------------------------------------------ *)
(** ** C9: [tools/call] without an object [params] *)

(** C9 (counterexample): [params: 5] does not make the destructuring
    throw (a number is boxed), [name] is [undefined], and the answer is
    [-32601], not [-32603]. *)
Lemma C9_number_params_not_found :
  handleRequest (JObj [("jsonrpc", JStr "2.0"); ("method", JStr "tools/call");
                       ("params", JNum 5); ("id", JNum 9)]) w_ok s_init
  = (Ok (error_resp (-32601) "Method not found" (JNum 9)), s_init).
Proof. reflexivity. Qed.

(** C9 (amended): on a ["2.0"] [tools/call] envelope, an absent or null
    [params] makes the destructuring throw a [TypeError], which the
    [catch] turns into [-32603] with the request's id; a [params] that
    is a number, string or boolean destructures to an undefined [name]
    and is answered [-32601] with the request's id. *)
Theorem C9_params_not_object (w : world) (s : st) (body : jsval) :
  nullish body = false -> is_str (fld body "jsonrpc") "2.0" = true ->
  is_str (fld body "method") "tools/call" = true ->
  (nullish (fld body "params") = true ->
   handleRequest body w s = (Ok (error_resp (-32603) "Internal error" (fld body "id")), s)) /\
  (match fld body "params" with JBool _ | JNum _ | JNaN | JStr _ => True | _ => False end ->
   handleRequest body w s
   = (Ok (error_resp (-32601) "Method not found" (fld body "id")), s)).
Proof.
  intros Hn Hj Hm. rewrite (handleRequest_tools_call body w s Hn Hj Hm).
  split.
  - intro Hp. unfold catch, bind, prop. rewrite (get_prop_nullish _ _ Hp). reflexivity.
  - destruct (fld body "params"); try contradiction; reflexivity.
Qed.

Lemma C9_params_not_object_witness :
  handleRequest (JObj [("jsonrpc", JStr "2.0"); ("method", JStr "tools/call"); ("id", JNum 9)])
    w_ok s_init
  = (Ok (error_resp (-32603) "Internal error" (JNum 9)), s_init).
Proof.
  exact (proj1 (C9_params_not_object w_ok s_init
                  (JObj [("jsonrpc", JStr "2.0"); ("method", JStr "tools/call");
                         ("id", JNum 9)]) eq_refl eq_refl eq_refl) eq_refl).
Defined.

(* ------------------------------------------------------------------ *)
(** ** C7 and C6: [searchUsers] *)

Definition search_path (q : string) : string :=
  "/v2/users?filter[login]=" ++ encodeURIComponent q ++ "&page[size]=5".

(** [searchUsers] with a string [query]: one GET, the upstream JSON
    wrapped as the text item, the request's id. No argument check comes
    before the GET. *)
Lemma searchUsers_run (w : world) (s : st) (q : string) (id : jsval)
    (tok : string) (e : Z) (v : jsval) :
  reply_ok (oauth_srv w) = true -> payload (oauth_srv w) = Some (tok, e) ->
  reply_ok (api_srv w (API_BASE ++ search_path q)) = true ->
  payload (api_srv w (API_BASE ++ search_path q)) = Some v ->
  exists bearer s' evs,
    handleRequest (call_req "searchUsers" (JObj [("query", JStr q)]) id) w s
    = (Ok (result_resp (text_content (json_stringify v)) id), s') /\
    trace s' = (evs ++ trace s)%list /\
    filter is_api_get evs = [EvApiGet (API_BASE ++ search_path q) bearer].
Proof.
  intros Ho Hp Ha Hv.
  destruct (apiRequest_ok (search_path q) w s tok e v Ho Hp Ha Hv)
    as (bearer & s' & evs & Hr & Ht & Hf).
  exists bearer, s', evs.
  rewrite handleRequest_call. simpl tool_case. cbv iota.
  unfold searchUsers, bind at 1.
  rewrite (prop_nonnull (JObj [("query", JStr q)]) "query" w s eq_refl).
  change (str (fld (JObj [("query", JStr q)]) "query")) with q.
  unfold bind. unfold search_path in Hr. rewrite Hr.
  split; [reflexivity | split; assumption].
Qed.

(** C7: for the request
    [{"jsonrpc":"2.0","method":"tools/call","params":{"name":"searchUsers",
    "arguments":{"query":"jd"}},"id":2}], when the OAuth exchange (if one
    is needed) and the GET succeed, exactly one API GET is issued, to
    [/v2/users?filter[login]=jd&page[size]=5], and the response wraps
    the upstream JSON array, stringified, as the single text content item
    with id [2]. *)
Theorem C7_searchUsers_jd (w : world) (s : st) (tok : string) (e : Z) (users : list jsval) :
  reply_ok (oauth_srv w) = true -> payload (oauth_srv w) = Some (tok, e) ->
  reply_ok (api_srv w (API_BASE ++ "/v2/users?filter[login]=jd&page[size]=5")) = true ->
  payload (api_srv w (API_BASE ++ "/v2/users?filter[login]=jd&page[size]=5"))
    = Some (JArr users) ->
  exists bearer s' evs,
    handleRequest
      (JObj [("jsonrpc", JStr "2.0"); ("method", JStr "tools/call");
             ("params", JObj [("name", JStr "searchUsers");
                              ("arguments", JObj [("query", JStr "jd")])]);
             ("id", JNum 2)]) w s
    = (Ok (JObj [("jsonrpc", JStr "2.0");
                 ("result", JObj [("content", JArr [JObj [("type", JStr "text");
                                                          ("text", json_stringify (JArr users))]])]);
                 ("id", JNum 2)]), s') /\
    trace s' = (evs ++ trace s)%list /\
    filter is_api_get evs
    = [EvApiGet (API_BASE ++ "/v2/users?filter[login]=jd&page[size]=5") bearer].
Proof.
  intros Ho Hp Ha Hv.
  exact (searchUsers_run w s "jd" (JNum 2) tok e (JArr users) Ho Hp Ha Hv).
Qed.

Lemma C7_searchUsers_jd_witness :
  exists bearer s' evs,
    handleRequest (call_req "searchUsers" (JObj [("query", JStr "jd")]) (JNum 2)) w_ok s_init
    = (Ok (result_resp (text_content (json_stringify upstream_users)) (JNum 2)), s') /\
    trace s' = (evs ++ trace s_init)%list /\
    filter is_api_get evs
    = [EvApiGet (API_BASE ++ "/v2/users?filter[login]=jd&page[size]=5") bearer].
Proof.
  exact (C7_searchUsers_jd w_ok s_init "tok" 7200
           [JObj [("id", JNum 1); ("login", JStr "jd"); ("level", JNum 7)]]
           eq_refl eq_refl eq_refl eq_refl).
Defined.

(** The JSON-Schema descriptors that [tools/list] advertises, read as a
    validator of [tools/call] arguments (the reading of the spec's
    round-trip property): the arguments are an object, every [required]
    member is present, and every present member has the advertised
    [type] and respects [minLength]/[maxLength]. *)
Definition spec_type_ok (ty : jsval) (v : jsval) : bool :=
  match ty, v with
  | JStr "string", JStr _ => true
  | JStr "number", JNum _ => true
  | JStr "boolean", JBool _ => true
  | JStr _, _ => false
  | _, _ => true
  end.

Definition spec_length_ok (p : jsval) (v : jsval) : bool :=
  match v with
  | JStr x =>
      let n := Z.of_nat (String.length x) in
      (match fld p "minLength" with JNum m => m <=? n | _ => true end)
      && (match fld p "maxLength" with JNum m => n <=? m | _ => true end)
  | _ => true
  end.

Definition spec_schema_accepts (schema args : jsval) : bool :=
  match args with
  | JObj _ =>
      (match fld schema "required" with
       | JArr rs => forallb (fun r => match r with
                                      | JStr k => negb (nullish (fld args k))
                                      | _ => true
                                      end) rs
       | _ => true
       end)
      && (match fld schema "properties" with
          | JObj ps => forallb (fun kp : string * jsval =>
                                  let (k, p) := kp in
                                  match fld args k with
                                  | JUndef => true
                                  | v => spec_type_ok (fld p "type") v && spec_length_ok p v
                                  end) ps
          | _ => true
          end)
  | _ => false
  end.

(** The names [tools/list] advertises. *)
Definition advertised_names : list jsval := map (fun t => fld t "name") tools_list.

Definition advertised_schema (name : string) : jsval :=
  match find (fun t => is_str (fld t "name") name) tools_list with
  | Some t => fld t "inputSchema"
  | None => JUndef
  end.

Local Ltac name_case n x :=
  destruct (String.eqb_spec n x) as [->|?];
  [intros _; apply in_map; simpl In; tauto|].

Lemma advertised_names_eq :
  advertised_names =
  map JStr ["searchUsers"; "getCursusLevel"; "getUserProjects"; "getCoalition";
            "getCampusUsers"; "getBalances"; "getClusters"; "getLocations";
            "getAttachments"; "getAttachment"; "getProjects"; "getProject";
            "getMyProjects"].
Proof. vm_compute. reflexivity. Qed.

(** The advertised [searchUsers] schema rejects every query shorter
    than 2 or longer than 30 characters. *)
Lemma searchUsers_schema_length (q : string) :
  (String.length q < 2 \/ 30 < String.length q)%nat ->
  spec_schema_accepts (advertised_schema "searchUsers") (JObj [("query", JStr q)]) = false.
Proof.
  intros Hq. cbn.
  destruct Hq as [Hq | Hq].
  - replace (2 <=? Z.of_nat (String.length q)) with false by (symmetry; apply Z.leb_gt; lia).
    reflexivity.
  - replace (Z.of_nat (String.length q) <=? 30) with false by (symmetry; apply Z.leb_gt; lia).
    rewrite andb_false_r. reflexivity.
Qed.

(** C6 (code bug): the names match, but [tools/call] enforces none of
    the advertised constraints: for every advertised tool it runs the
    handler on the [arguments] exactly as received, and in particular
    [searchUsers] forwards upstream, and answers with the upstream
    result, every query of fewer than 2 or more than 30 characters,
    which the advertised [minLength]/[maxLength] reject. *)
Theorem C6_schema_not_enforced :
  (forall n : string, In (JStr n) advertised_names <-> tool_case (JStr n) <> None) /\
  (forall (n : string) (run : jsval -> M jsval) (args id : jsval) (w : world) (s : st),
     tool_case (JStr n) = Some run ->
     handleRequest (call_req n args id) w s =
     match run args w s with
     | (Ok t, s') => (Ok (result_resp (text_content t) id), s')
     | (Throw _, s') => (Ok (error_resp (-32603) "Internal error" id), s')
     end) /\
  (forall (w : world) (s : st) (q : string) (id : jsval) (tok : string) (e : Z) (v : jsval),
     (String.length q < 2 \/ 30 < String.length q)%nat ->
     reply_ok (oauth_srv w) = true -> payload (oauth_srv w) = Some (tok, e) ->
     reply_ok (api_srv w (API_BASE ++ search_path q)) = true ->
     payload (api_srv w (API_BASE ++ search_path q)) = Some v ->
     spec_schema_accepts (advertised_schema "searchUsers") (JObj [("query", JStr q)]) = false /\
     exists s', handleRequest (call_req "searchUsers" (JObj [("query", JStr q)]) id) w s
                = (Ok (result_resp (text_content (json_stringify v)) id), s')).
Proof.
  split; [|split].
  - intro n. rewrite advertised_names_eq. split.
    + intro Hin. simpl in Hin.
      repeat (destruct Hin as [Hin | Hin]; [injection Hin as <-; discriminate|]).
      contradiction.
    + unfold tool_case.
      name_case n "searchUsers". name_case n "getCursusLevel".
      name_case n "getUserProjects". name_case n "getCoalition".
      name_case n "getCampusUsers". name_case n "getBalances".
      name_case n "getClusters". name_case n "getLocations".
      name_case n "getAttachments". name_case n "getAttachment".
      name_case n "getProjects". name_case n "getProject".
      name_case n "getMyProjects".
      intro H; exfalso; apply H; reflexivity.
  - intros n run args id w s Hr. rewrite handleRequest_call, Hr. reflexivity.
  - intros w s q id tok e v Hq Ho Hp Ha Hv. split; [exact (searchUsers_schema_length q Hq)|].
    destruct (searchUsers_run w s q id tok e v Ho Hp Ha Hv) as (b & s' & evs & H & _).
    exists s'. exact H.
Qed.

Lemma C6_schema_not_enforced_witness :
  spec_schema_accepts (advertised_schema "searchUsers") (JObj [("query", JStr "j")]) = false /\
  exists s', handleRequest (call_req "searchUsers" (JObj [("query", JStr "j")]) (JNum 1))
               w_ok s_init
             = (Ok (result_resp (text_content (json_stringify upstream_users)) (JNum 1)), s').
Proof.
  exact (proj2 (proj2 C6_schema_not_enforced) w_ok s_init "j" (JNum 1) "tok" 7200
           upstream_users ltac:(left; simpl; lia) eq_refl eq_refl eq_refl eq_refl).
Defined.

(* ------------------------------------------------------------------ *)
(** ** C10: the default cursus of [getCursusLevel] *)

Definition cursus_path (userId cursusId : string) : string :=
  "/v2/users/" ++ userId ++ "/cursus_users?filter[cursus_id]=" ++ cursusId.

(** The texts [getCursusLevel] can produce for cursus [c]. *)
Definition cursus_text (c : string) (t : jsval) : Prop :=
  t = JStr "User not enrolled in this cursus." \/
  exists lvl, t = JStr ("Level " ++ lvl ++ " in cursus " ++ c).

Lemma js_or_falsy (a b : jsval) : truthy a = false -> js_or a b = b.
Proof. unfold js_or. now intros ->. Qed.

(** With a falsy [cursusId], [getCursusLevel] only GETs the cursus-21
    URL and, when it returns, names cursus 21 in its text. *)
Lemma getCursusLevel_default (args : jsval) w s :
  nullish args = false -> truthy (fld args "cursusId") = false ->
  emits (fun e => is_api_get e = true ->
                  exists b, e = EvApiGet (API_BASE ++ cursus_path (str (fld args "userId")) "21") b)
        (getCursusLevel args) w s /\
  match fst (getCursusLevel args w s) with
  | Ok t => cursus_text "21" t
  | Throw _ => True
  end.
Proof.
  intros Hn Hc.
  pose proof (apiRequest_emits (cursus_path (str (fld args "userId")) "21") w s)
    as (evs & Ht & Hf).
  unfold emits, getCursusLevel, bind, prop, ret.
  rewrite !(get_prop_some args _ Hn), !(js_or_falsy _ _ Hc).
  change (str (JNum 21)) with "21".
  fold (cursus_path (str (fld args "userId")) "21").
  destruct (apiRequest (cursus_path (str (fld args "userId")) "21") w s)
    as [[cu|ex] s1]; simpl in Ht.
  - destruct (get_prop cu "length") as [len|]; [destruct (truthy len)|].
    + destruct (get_prop cu "0") as [first|]; [|split; [eauto | exact I]].
      destruct (get_prop first "level") as [level|]; [|split; [eauto | exact I]].
      split; [eauto|]. right. eexists. reflexivity.
    + split; [eauto|]. left. reflexivity.
    + split; [eauto | exact I].
  - split; [eauto | exact I].
Qed.

(** C10: a [tools/call] of [getCursusLevel] whose [cursusId] argument is
    falsy (omitted, [null], [0], ...) issues GETs only to
    [/v2/users/<userId>/cursus_users?filter[cursus_id]=21], so a [0] is
    never sent upstream, and its response is either the text
    ["User not enrolled in this cursus."], a text
    ["Level ... in cursus 21"], or the [-32603] error, with the request's
    id. *)
Theorem C10_cursus_default (args id : jsval) (w : world) (s : st) :
  nullish args = false -> truthy (fld args "cursusId") = false ->
  let (r, s') := handleRequest (call_req "getCursusLevel" args id) w s in
  (exists evs, trace s' = (evs ++ trace s)%list /\
     Forall (fun e => is_api_get e = true ->
                      exists b, e = EvApiGet (API_BASE ++ cursus_path (str (fld args "userId")) "21") b)
            evs) /\
  (r = Ok (error_resp (-32603) "Internal error" id) \/
   exists t, cursus_text "21" t /\ r = Ok (result_resp (text_content t) id)).
Proof.
  intros Hn Hc.
  destruct (getCursusLevel_default args w s Hn Hc) as [(evs & Ht & Hf) Hr].
  rewrite handleRequest_call. simpl tool_case. cbv iota.
  destruct (getCursusLevel args w s) as [[t|ex] s']; simpl in Ht, Hr.
  - split; [eauto|]. right. eauto.
  - split; [eauto|]. left. reflexivity.
Qed.

Definition cursus_args : jsval := JObj [("userId", JStr "jd"); ("cursusId", JNum 0)].

Lemma C10_cursus_default_witness :
  nullish cursus_args = false /\ truthy (fld cursus_args "cursusId") = false /\
  let (r, s') := handleRequest (call_req "getCursusLevel" cursus_args (JNum 3)) w_ok s_init in
  (exists evs, trace s' = (evs ++ trace s_init)%list /\
     Forall (fun e => is_api_get e = true ->
                      exists b, e = EvApiGet (API_BASE ++ cursus_path "jd" "21") b) evs) /\
  (r = Ok (error_resp (-32603) "Internal error" (JNum 3)) \/
   exists t, cursus_text "21" t /\ r = Ok (result_resp (text_content t) (JNum 3))).
Proof.
  split; [reflexivity|]. split; [reflexivity|].
  exact (C10_cursus_default cursus_args (JNum 3) w_ok s_init eq_refl eq_refl).
Defined.

(* ================================================================== *)
(** * Further properties of the module *)

(* ------------------------------------------------------------------ *)
(** ** Outbound requests per JSON-RPC request *)

Definition n_gets (evs : list event) : nat := length (filter is_api_get evs).

Definition n_posts (evs : list event) : nat :=
  length (filter (fun e => negb (is_api_get e)) evs).

(** [m] adds nothing to the trace. *)
Definition silent {A} (m : M A) : Prop := forall w s, trace (snd (m w s)) = trace s.

(** [m] adds at most one API GET and at most one OAuth POST to the trace. *)
Definition one_call {A} (m : M A) : Prop :=
  forall w s, exists evs, trace (snd (m w s)) = (evs ++ trace s)%list /\
    (n_gets evs <= 1)%nat /\ (n_posts evs <= 1)%nat.

Lemma silent_ret {A} (a : A) : silent (ret a).
Proof. intros w s. reflexivity. Qed.

Lemma silent_prop (v : jsval) (k : string) : silent (prop v k).
Proof. intros w s. unfold prop. destruct (get_prop v k); reflexivity. Qed.

Lemma silent_bind {A B} (m : M A) (k : A -> M B) :
  silent m -> (forall a, silent (k a)) -> silent (bind m k).
Proof.
  intros Hm Hk w s. specialize (Hm w s). unfold bind.
  destruct (m w s) as [[a|e] s1]; simpl in *; [rewrite Hk|]; exact Hm.
Qed.

Lemma silent_one_call {A} (m : M A) : silent m -> one_call m.
Proof.
  intros H w s. exists []. rewrite H. split; [reflexivity | cbn; lia].
Qed.

Lemma one_call_bind_l {A B} (m : M A) (k : A -> M B) :
  silent m -> (forall a, one_call (k a)) -> one_call (bind m k).
Proof.
  intros Hm Hk w s. specialize (Hm w s). unfold bind.
  destruct (m w s) as [[a|e] s1]; simpl in *.
  - destruct (Hk a w s1) as (evs & Ht & H1 & H2). exists evs.
    rewrite Ht, Hm. auto.
  - exists []. rewrite Hm. split; [reflexivity | cbn; lia].
Qed.

Lemma one_call_bind_r {A B} (m : M A) (k : A -> M B) :
  one_call m -> (forall a, silent (k a)) -> one_call (bind m k).
Proof.
  intros Hm Hk w s. destruct (Hm w s) as (evs & Ht & H1 & H2). unfold bind.
  destruct (m w s) as [[a|e] s1]; simpl in *; exists evs; [rewrite Hk|]; auto.
Qed.

Lemma one_call_catch {A} (m : M A) (h : exn -> M A) :
  one_call m -> (forall e, silent (h e)) -> one_call (catch m h).
Proof.
  intros Hm Hh w s. destruct (Hm w s) as (evs & Ht & H1 & H2). unfold catch.
  destruct (m w s) as [[a|e] s1]; simpl in *; exists evs; [|rewrite Hh]; auto.
Qed.

Lemma getAccessToken_trace (w : world) (s : st) :
  trace (snd (getAccessToken w s)) = trace s \/
  trace (snd (getAccessToken w s)) = EvOAuthPost :: trace s.
Proof.
  destruct (token_cached s) eqn:Hc.
  - left. unfold token_cached in Hc.
    destruct (cache s) as [[v t]|] eqn:Hcs; [|discriminate].
    apply andb_prop in Hc as [Hx Hv]. apply negb_true_iff in Hx.
    unfold getAccessToken, bind, cache_get. rewrite Hcs, Hx, Hv. reflexivity.
  - right. destruct (getAccessToken_miss_one_post w s Hc) as (r & s' & -> & Ht).
    exact Ht.
Qed.

Lemma apiRequest_one_call (p : string) : one_call (apiRequest p).
Proof.
  intros w s. unfold apiRequest. unfold bind at 1.
  pose proof (getAccessToken_trace w s) as Ht.
  destruct (getAccessToken w s) as [[tk|e] s1]; simpl in Ht.
  - unfold bind, fetch_api. cbn -[API_BASE].
    assert (Hr : forall (X : res jsval * st),
               trace (snd X) = EvApiGet (API_BASE ++ p) tk :: trace s1 ->
               exists evs, trace (snd X) = (evs ++ trace s)%list /\
                 (n_gets evs <= 1)%nat /\ (n_posts evs <= 1)%nat).
    { intros X HX. rewrite HX.
      destruct Ht as [-> | ->].
      - exists [EvApiGet (API_BASE ++ p) tk]. split; [reflexivity | cbn; lia].
      - exists [EvApiGet (API_BASE ++ p) tk; EvOAuthPost]. split; [reflexivity | cbn; lia]. }
    apply Hr. destruct (reply_ok (api_srv w (API_BASE ++ p)));
      [destruct (payload (api_srv w (API_BASE ++ p)))|]; reflexivity.
  - simpl. destruct Ht as [-> | ->].
    + exists []. split; [reflexivity | cbn; lia].
    + exists [EvOAuthPost]. split; [reflexivity | cbn; lia].
Qed.

Ltac silent_tac :=
  repeat (cbv beta zeta;
          first [ apply silent_ret | apply silent_prop
                | apply silent_bind; [|intro]
                | match goal with |- silent (if ?b then _ else _) => destruct b end ]).

Ltac one_call_tac :=
  repeat (cbv beta zeta;
          first [ apply one_call_bind_r; [apply apiRequest_one_call | intro; solve [silent_tac]]
                | apply one_call_bind_l; [solve [silent_tac] | intro] ]).

Lemma tool_case_one_call (name : jsval) (run : jsval -> M jsval) (args : jsval) :
  tool_case name = Some run -> one_call (run args).
Proof.
  destruct name as [| | | | |n| |]; try discriminate.
  intro Hn. apply tool_case_cases in Hn. simpl in Hn.
  repeat destruct Hn as [<- | Hn]; try contradiction;
    unfold searchUsers, getCursusLevel, getUserProjects, getCoalition,
      getCampusUsers, getBalances, getClusters, getLocations,
      getAttachments, getAttachment, getProjects, getProject, getMyProjects;
    one_call_tac.
Qed.

(** X1: whatever the request body, [handleRequest] makes at most one
    request to the 42 API and at most one OAuth token exchange. *)
Theorem handleRequest_one_call (requestBody : jsval) : one_call (handleRequest requestBody).
Proof.
  unfold handleRequest.
  apply one_call_bind_l; [apply silent_prop | intro jsonrpc].
  apply one_call_bind_l; [apply silent_prop | intro method].
  apply one_call_bind_l; [apply silent_prop | intro params].
  apply one_call_bind_l; [apply silent_prop | intro id].
  destruct (negb (is_str jsonrpc "2.0")); [apply silent_one_call, silent_ret|].
  apply one_call_catch; [|intro; apply silent_ret].
  unfold dispatch.
  repeat (destruct (is_str method _); [try (apply silent_one_call, silent_ret)|]);
    try (apply silent_one_call, silent_ret).
  apply one_call_bind_l; [apply silent_prop | intro name].
  apply one_call_bind_l; [apply silent_prop | intro args].
  destruct (tool_case name) as [run|] eqn:Hr; [|apply silent_one_call, silent_ret].
  apply one_call_bind_r; [exact (tool_case_one_call name run args Hr) | intro; apply silent_ret].
Qed.

(** X2: a request whose method is not ["tools/call"] leaves the process
    state alone: no outbound request, and the token cache is not even
    read. *)
Theorem handleRequest_no_io_outside_tools_call (requestBody : jsval) (w : world) (s : st) :
  is_str (fld requestBody "method") "tools/call" = false ->
  snd (handleRequest requestBody w s) = s.
Proof.
  intro Hm.
  destruct (nullish requestBody) eqn:Hn; [now rewrite handleRequest_nullish|].
  rewrite (handleRequest_eq requestBody w s Hn).
  destruct (negb (is_str (fld requestBody "jsonrpc") "2.0")); [reflexivity|].
  unfold catch, dispatch. rewrite Hm.
  destruct (is_str (fld requestBody "method") "initialize"); [reflexivity|].
  destruct (is_str (fld requestBody "method") "tools/list"); [reflexivity|].
  destruct (is_str (fld requestBody "method") "resources/list"); reflexivity.
Qed.

Definition list_req : jsval :=
  JObj [("jsonrpc", JStr "2.0"); ("method", JStr "tools/list"); ("id", JNum 1)].

Lemma handleRequest_no_io_outside_tools_call_witness :
  is_str (fld list_req "method") "tools/call" = false /\
  snd (handleRequest list_req w_ok s_init) = s_init.
Proof.
  split; [reflexivity|].
  exact (handleRequest_no_io_outside_tools_call list_req w_ok s_init eq_refl).
Defined.

(* ------------------------------------------------------------------ *)
(** ** The token cache and upstream failures *)

Lemma getAccessToken_cached (w : world) (s : st) (tok : string) (t : Z) :
  cache s = Some (tok, t) -> token_cached s = true -> getAccessToken w s = (Ok tok, s).
Proof.
  intros Hcs Hc. unfold token_cached in Hc. rewrite Hcs in Hc.
  apply andb_prop in Hc as [Hx Hv]. apply negb_true_iff in Hx.
  unfold getAccessToken, bind, cache_get. rewrite Hcs, Hx, Hv. reflexivity.
Qed.

(** X3: with a servable token cached, an API reply outside 2xx (a 401
    included) makes [apiRequest] throw an error carrying the reply's
    status and body, after exactly one GET that presented the cached
    token; the cache is left as it was, so the rejected token is not
    evicted. *)
Theorem apiRequest_error_keeps_token (p : string) (w : world) (s : st) (tok : string) (t : Z) :
  cache s = Some (tok, t) -> token_cached s = true ->
  reply_ok (api_srv w (API_BASE ++ p)) = false ->
  apiRequest p w s =
  (Throw (ErrApi (status (api_srv w (API_BASE ++ p))) (body (api_srv w (API_BASE ++ p)))),
   mkSt (cache s) (clock s + latency w) (EvApiGet (API_BASE ++ p) tok :: trace s)).
Proof.
  intros Hcs Hc Ha. unfold apiRequest. unfold bind at 1.
  rewrite (getAccessToken_cached w s tok t Hcs Hc).
  unfold bind, fetch_api. cbn -[API_BASE]. rewrite Ha. reflexivity.
Qed.

Definition s_cached : st := mkSt (Some ("tok", 0)) 1000 [].

(** The API rejects every token. *)
Definition w_api_401 : world :=
  mkWorld (mkReply 200 "" (Some ("tok2", 7200)))
          (fun _ => mkReply 401 "{}" None) 5.

Lemma apiRequest_error_keeps_token_witness :
  cache s_cached = Some ("tok", 0) /\ token_cached s_cached = true /\
  apiRequest "/v2/me" w_api_401 s_cached =
  (Throw (ErrApi 401 "{}"),
   mkSt (Some ("tok", 0)) 1005 [EvApiGet (API_BASE ++ "/v2/me") "tok"]).
Proof.
  split; [reflexivity|]. split; [reflexivity|].
  exact (apiRequest_error_keeps_token "/v2/me" w_api_401 s_cached "tok" 0
           eq_refl eq_refl eq_refl).
Defined.

(** X4: a token issued with [0 <= expires_in < 60] is stored with a ttl
    [expires_in - 60 < 0], i.e. an expiry already in the past, so it is
    never served from the cache: the next [getAccessToken], at any later
    time, performs a new exchange. (The clock is assumed past the first
    minute of the epoch, so that the stored expiry is not [0], which
    node-cache reads as "never".) *)
Theorem getAccessToken_short_lived (w : world) (s : st) (tok : string) (expires_in : Z) :
  token_cached s = false -> reply_ok (oauth_srv w) = true ->
  payload (oauth_srv w) = Some (tok, expires_in) ->
  0 <= expires_in < 60 -> 60000 < clock s + latency w ->
  forall (w' : world) (t2 : Z), clock s + latency w <= t2 ->
  let s1 := snd (getAccessToken w s) in
  trace (snd (getAccessToken w' (mkSt (cache s1) t2 (trace s1)))) = EvOAuthPost :: trace s1.
Proof.
  intros Hmiss Hok Hpay He Hnow w' t2 Ht2 s1.
  subst s1. rewrite (getAccessToken_miss w s Hmiss), (oauth_exchange_ok _ _ tok expires_in Hok Hpay).
  simpl. unfold cache_expiry.
  destruct (Z.eqb_spec (expires_in - 60) 0); [lia|].
  match goal with |- trace (snd (getAccessToken w' ?s2)) = _ =>
    assert (Hc : token_cached s2 = false) end.
  { unfold token_cached, expired. simpl.
    destruct (Z.eqb_spec (clock s + latency w + (expires_in - 60) * 1000) 0); [lia|].
    destruct (Z.ltb_spec (clock s + latency w + (expires_in - 60) * 1000) t2); [reflexivity|lia]. }
  destruct (getAccessToken_miss_one_post w' _ Hc) as (r & s' & -> & Ht). exact Ht.
Qed.

(** The OAuth endpoint issues tokens valid for 30 seconds. *)
Definition w_short : world :=
  mkWorld (mkReply 200 "" (Some ("tok", 30)))
          (fun _ => mkReply 200 "" (Some upstream_users)) 5.

Definition s_later : st := mkSt None 100000 [].

Lemma getAccessToken_short_lived_witness :
  token_cached s_later = false /\
  trace (snd (getAccessToken w_short
                (mkSt (cache (snd (getAccessToken w_short s_later))) 100005
                      (trace (snd (getAccessToken w_short s_later))))))
  = [EvOAuthPost; EvOAuthPost].
Proof.
  split; [reflexivity|].
  exact (getAccessToken_short_lived w_short s_later "tok" 30 eq_refl eq_refl eq_refl
           ltac:(lia) ltac:(vm_compute; reflexivity) w_short 100005 ltac:(vm_compute; discriminate)).
Defined.

(* ------------------------------------------------------------------ *)
(** ** [encodeURIComponent] *)

(** Every character of [s] satisfies [p]. *)
Fixpoint all_chars (p : ascii -> bool) (s : string) : bool :=
  match s with
  | EmptyString => true
  | String c r => p c && all_chars p r
  end.

(** The characters [encodeURIComponent] may produce. *)
Definition uri_char (c : ascii) : bool := uri_unreserved c || Ascii.eqb c "%".

Lemma all_chars_app (p : ascii -> bool) (s1 s2 : string) :
  all_chars p (s1 ++ s2) = all_chars p s1 && all_chars p s2.
Proof. induction s1 as [|c r IH]; simpl; [reflexivity|]. rewrite IH. apply andb_assoc. Qed.

Definition hex_char (d : nat) : ascii :=
  ascii_of_nat (if (d <? 10)%nat then 48 + d else 55 + d).

Lemma hex2_chars (n : nat) :
  hex2 n = String (hex_char (n / 16)) (String (hex_char (n mod 16)) EmptyString).
Proof. reflexivity. Qed.

Lemma hex_char_unreserved (d : nat) : (d < 16)%nat -> uri_unreserved (hex_char d) = true.
Proof. intro H. do 16 (destruct d as [|d]; [reflexivity|]). lia. Qed.

Lemma div16_bound (c : ascii) : (nat_of_ascii c / 16 < 16)%nat.
Proof. pose proof (nat_ascii_bounded c). apply Nat.Div0.div_lt_upper_bound. lia. Qed.

(** X5: [encodeURIComponent] only produces unreserved characters and
    [%] (its escapes are [%] and two hexadecimal digits), so a string
    put through it cannot bring [&], [=], [?], [#], [/], [+] or a space
    into the URL it is interpolated into. *)
Theorem encodeURIComponent_chars (s : string) :
  all_chars uri_char (encodeURIComponent s) = true /\
  forallb (fun c => negb (uri_char c)) ["&"; "="; "?"; "#"; "/"; "+"; " "]%char = true.
Proof.
  split; [|reflexivity].
  induction s as [|c r IH]; [reflexivity|].
  simpl encodeURIComponent. rewrite all_chars_app, IH, andb_true_r.
  destruct (uri_unreserved c) eqn:Hc.
  - simpl. unfold uri_char. now rewrite Hc.
  - rewrite hex2_chars. cbn [append all_chars]. unfold uri_char.
    rewrite (hex_char_unreserved _ (div16_bound c)).
    rewrite (hex_char_unreserved _ (Nat.mod_upper_bound _ 16 ltac:(discriminate))).
    reflexivity.
Qed.

(** Reading back [%XY] escapes (used to show that no information is
    lost by the encoding). *)
Definition hex_val (c : ascii) : nat :=
  let k := nat_of_ascii c in if (k <? 58)%nat then k - 48 else k - 55.

Fixpoint uri_decode (s : string) : string :=
  match s with
  | EmptyString => EmptyString
  | String c r =>
      if Ascii.eqb c "%" then
        match r with
        | String h1 (String h2 r') =>
            String (ascii_of_nat (hex_val h1 * 16 + hex_val h2)) (uri_decode r')
        | _ => String c (uri_decode r)
        end
      else String c (uri_decode r)
  end.

Lemma hex_val_char (d : nat) : (d < 16)%nat -> hex_val (hex_char d) = d.
Proof. intro H. do 16 (destruct d as [|d]; [reflexivity|]). lia. Qed.

Lemma uri_decode_escape (h1 h2 : ascii) (r : string) :
  uri_decode (String "%" (String h1 (String h2 r)))
  = String (ascii_of_nat (hex_val h1 * 16 + hex_val h2)) (uri_decode r).
Proof. reflexivity. Qed.

Lemma uri_decode_encode (s : string) : uri_decode (encodeURIComponent s) = s.
Proof.
  induction s as [|c r IH]; [reflexivity|].
  simpl encodeURIComponent. destruct (uri_unreserved c) eqn:Hc.
  - simpl. destruct (Ascii.eqb_spec c "%").
    + subst c. discriminate.
    + now rewrite IH.
  - rewrite hex2_chars. cbn [append]. rewrite uri_decode_escape.
    rewrite (hex_val_char _ (div16_bound c)).
    rewrite (hex_val_char _ (Nat.mod_upper_bound _ 16 ltac:(discriminate))).
    rewrite IH. f_equal.
    rewrite Nat.mul_comm, <- Nat.div_mod by discriminate.
    apply ascii_nat_embedding.
Qed.

(** X6: [encodeURIComponent] is injective: two different search
    strings never produce the same URL component. *)
Theorem encodeURIComponent_injective (s1 s2 : string) :
  encodeURIComponent s1 = encodeURIComponent s2 -> s1 = s2.
Proof.
  intro H. rewrite <- (uri_decode_encode s1), <- (uri_decode_encode s2), H. reflexivity.
Qed.

Lemma encodeURIComponent_injective_witness :
  encodeURIComponent "j d" = encodeURIComponent "j d" /\ "j d" = "j d".
Proof.
  split; [reflexivity|].
  exact (encodeURIComponent_injective "j d" "j d" eq_refl).
Defined.

(* ------------------------------------------------------------------ *)
(** ** The URLs the [tools/call] cases request *)

(** [run args] requests [url], nothing else, and answers with the JSON
    reply stringified. *)
Definition gets_url (run : jsval -> M jsval) (args : jsval) (url : string) : Prop :=
  forall w s, run args w s = (x <- apiRequest url ;; ret (json_stringify x)) w s.

(** The argument values whose template-literal text [str] renders as
    JavaScript does. An object or an array may carry an own [toString]
    or [valueOf] key, and then the conversion throws a [TypeError]
    before any request; a number beyond the safe-integer range is
    printed by JavaScript in shortest round-trip or exponent form. The
    URL properties below are stated for arguments of this kind. *)
Definition str_exact (v : jsval) : bool :=
  match v with
  | JObj _ | JArr _ => false
  | JNum n => Z.abs n <=? 9007199254740991
  | _ => true
  end.



Lemma string_app_assoc (a b c : string) : (a ++ b) ++ c = a ++ (b ++ c).
Proof. induction a as [|x a IH]; simpl; [reflexivity | now rewrite IH]. Qed.

























(** X11: every argument a tool interpolates without a default, when the
    caller leaves it out, is written as the text [undefined]:
    [searchUsers] without [query] searches the login ["undefined"];
    without [userId], [getCursusLevel] sends its GETs to
    [/v2/users/undefined/cursus_users?...], [getUserProjects] requests
    [/v2/users/undefined/projects_users...] and [getCoalition]
    [/v2/users/undefined/coalitions]; [getAttachment] without
    [attachmentId] requests [.../attachments/undefined]; and
    [getProject] without [projectId] requests [/v2/projects/undefined]. *)
Theorem missing_arg_undefined (fs : list (string * jsval)) :
  let args := JObj fs in
  (assoc "query" fs = None ->
   gets_url searchUsers args "/v2/users?filter[login]=undefined&page[size]=5") /\
  (assoc "userId" fs = None -> forall (w : world) (s : st),
   emits (fun e => is_api_get e = true ->
                   exists b, e = EvApiGet (API_BASE ++ cursus_path "undefined"
                                             (str (js_or (fld args "cursusId") (JNum 21)))) b)
         (getCursusLevel args) w s) /\
  (assoc "userId" fs = None -> str_exact (fld args "cursusId") = true ->
   exists rest, gets_url getUserProjects args ("/v2/users/undefined/projects_users" ++ rest)) /\
  (assoc "userId" fs = None ->
   gets_url getCoalition args "/v2/users/undefined/coalitions") /\
  (assoc "attachmentId" fs = None -> str_exact (fld args "projectSessionId") = true ->
   exists pre, gets_url getAttachment args (pre ++ "/attachments/undefined")) /\
  (assoc "projectId" fs = None ->
   gets_url getProject args "/v2/projects/undefined").
Proof.
  intros args. subst args.
  assert (Hu : forall k, assoc k fs = None -> fld (JObj fs) k = JUndef)
    by (intros k Hk; unfold fld; simpl; now rewrite Hk).
  split; [|split; [|split; [|split; [|split]]]].
  - intros H w s. unfold searchUsers, bind, prop, ret.
    rewrite !(get_prop_some (JObj fs) _ eq_refl), (Hu _ H). reflexivity.
  - intros H w s.
    pose proof (apiRequest_emits
                  (cursus_path "undefined" (str (js_or (fld (JObj fs) "cursusId") (JNum 21)))) w s)
      as (evs & Ht & Hf).
    unfold emits, getCursusLevel, bind, prop, ret.
    rewrite !(get_prop_some (JObj fs) _ eq_refl), (Hu _ H).
    fold (cursus_path (str JUndef) (str (js_or (fld (JObj fs) "cursusId") (JNum 21)))).
    change (str JUndef) with "undefined".
    destruct (apiRequest (cursus_path "undefined" (str (js_or (fld (JObj fs) "cursusId") (JNum 21))))
                w s) as [[cu|ex] s1]; simpl in Ht.
    + destruct (get_prop cu "length") as [len|]; [destruct (truthy len)|].
      * destruct (get_prop cu "0") as [first|]; [|eauto].
        destruct (get_prop first "level") as [level|]; eauto.
      * eauto.
      * eauto.
    + eauto.
  - intros H _.
    exists (if truthy (fld (JObj fs) "cursusId")
            then "?filter[cursus_id]=" ++ str (fld (JObj fs) "cursusId") else "").
    intros w s. unfold getUserProjects, bind, prop, ret.
    rewrite !(get_prop_some (JObj fs) _ eq_refl), (Hu _ H). cbv beta iota zeta.
    destruct (truthy (fld (JObj fs) "cursusId")); reflexivity.
  - intros H w s. unfold getCoalition, bind, prop, ret.
    rewrite !(get_prop_some (JObj fs) _ eq_refl), (Hu _ H). reflexivity.
  - intros H _.
    exists (if truthy (fld (JObj fs) "projectSessionId")
            then "/v2/project_sessions/" ++ str (fld (JObj fs) "projectSessionId") else "/v2").
    intros w s. unfold getAttachment, bind, prop, ret.
    rewrite !(get_prop_some (JObj fs) _ eq_refl), (Hu _ H). cbv beta iota zeta.
    destruct (truthy (fld (JObj fs) "projectSessionId")); cbv iota;
      [rewrite string_app_assoc|]; reflexivity.
  - intros H w s. unfold getProject, bind, prop, ret.
    rewrite !(get_prop_some (JObj fs) _ eq_refl), (Hu _ H). reflexivity.
Qed.

Lemma missing_arg_undefined_witness :
  exists pre, gets_url getAttachment (JObj [("projectSessionId", JNum 3)])
                (pre ++ "/attachments/undefined").
Proof.
  exact (proj1 (proj2 (proj2 (proj2 (proj2 (missing_arg_undefined [("projectSessionId", JNum 3)])))))
           eq_refl eq_refl).
Defined.

Lemma tool_nullish_args (n : string) (run : jsval -> M jsval) (args : jsval) w s :
  tool_case (JStr n) = Some run -> nullish args = true -> run args w s = (Throw ErrType, s).
Proof.
  intros Hr Ha. apply tool_case_cases in Hr. simpl in Hr.
  repeat destruct Hr as [<- | Hr]; try contradiction;
    unfold searchUsers, getCursusLevel, getUserProjects, getCoalition,
      getCampusUsers, getBalances, getClusters, getLocations,
      getAttachments, getAttachment, getProjects, getProject, getMyProjects, bind, prop;
    rewrite (get_prop_nullish args _ Ha); reflexivity.
Qed.

(** X12: a [tools/call] naming a registered tool with [arguments] absent
    or [null] is answered [-32603] with the request's id, before any
    outbound request and without touching the token cache. *)
Theorem tools_call_nullish_arguments (name : string) (args id : jsval) (w : world) (s : st) :
  tool_case (JStr name) <> None -> nullish args = true ->
  handleRequest (call_req name args id) w s
  = (Ok (error_resp (-32603) "Internal error" id), s).
Proof.
  intros Hr Ha. rewrite handleRequest_call.
  destruct (tool_case (JStr name)) as [run|] eqn:E; [|contradiction].
  rewrite (tool_nullish_args name run args w s E Ha). reflexivity.
Qed.

Lemma tools_call_nullish_arguments_witness :
  handleRequest (call_req "getProject" JNull (JNum 4)) w_ok s_init
  = (Ok (error_resp (-32603) "Internal error" (JNum 4)), s_init).
Proof.
  exact (tools_call_nullish_arguments "getProject" JNull (JNum 4) w_ok s_init
           ltac:(discriminate) eq_refl).
Defined.

(* ------------------------------------------------------------------ *)
(** ** The Express application of the HTTP transport

    [express.json()] runs first, then the CORS middleware, then the two
    routes. Express's matching of a route path against the request path
    is left as a parameter [route_matches]. *)

(** The request body as [express.json()] (body-parser, default options)
    sees it. *)
Inductive req_body : Type :=
(* no body, or a Content-Type other than JSON: [req.body] stays [undefined] *)
| NoJsonBody
(* a JSON body of [len] bytes, and [JSON.parse] of its text ([None]: not JSON) *)
| JsonBody (len : Z) (parsed : option jsval)
(* a JSON body that cannot be read: unsupported charset or encoding,
   aborted request; the parser's error status *)
| JsonUnreadable (status : Z).

(** [express.json()]: an error status, passed to [next(err)], or
    [req.body]. The default limit is 100kb; an empty body reads as [{}];
    strict mode accepts only an object or an array. *)
Definition json_parser (b : req_body) : Z + jsval :=
  match b with
  | NoJsonBody => inr JUndef
  | JsonUnreadable st => inl st
  | JsonBody len p =>
      if 102400 <? len then inl 413
      else if len =? 0 then inr (JObj [])
      else match p with
           | Some (JObj fs) => inr (JObj fs)
           | Some (JArr l) => inr (JArr l)
           | _ => inl 400
           end
  end.

Inductive http_body : Type :=
| BodyJson (v : jsval)
| BodyText (t : string)
| BodyHtmlError (status : Z).

Record http_response := mkHttp {
  http_status : Z;
  http_headers : list (string * string);
  http_payload : http_body
}.

(** The headers the CORS middleware sets on every response. *)
Definition cors_headers : list (string * string) :=
  [("Access-Control-Allow-Origin", "*");
   ("Access-Control-Allow-Headers", "Content-Type, Authorization");
   ("Access-Control-Allow-Methods", "GET, POST, OPTIONS")].

(** [app.post('/')]: the status and the JSON sent. *)
Definition post_root (body : jsval) : M (Z * jsval) :=
  catch (response <- handleRequest body ;; ret (200, response))
        (* req.body?.id || null *)
        (fun _ => ret (500, error_resp (-32603) "Internal error" (js_or (fld body "id") JNull))).

Definition health_body : jsval :=
  JObj [("status", JStr "healthy"); ("server", JStr "42-api-server");
        ("version", JStr "0.1.5")].

(** The CORS middleware, then the two routes, on the parsed body;
    [None] is a request no handler of the module answers (Express's
    final handler does). *)
Definition cors_routes (route_matches : string -> string -> bool) (meth path : string)
    (body : jsval) : M (option http_response) :=
  if String.eqb meth "OPTIONS" then ret (Some (mkHttp 200 cors_headers (BodyText "OK")))
  else if String.eqb meth "POST" && route_matches "/" path then
    r <- post_root body ;; ret (Some (mkHttp (fst r) cors_headers (BodyJson (snd r))))
  else if (String.eqb meth "GET" || String.eqb meth "HEAD") && route_matches "/health" path then
    ret (Some (mkHttp 200 cors_headers (BodyJson health_body)))
  else ret None.

(** The headers of Express's final handler on an error: its HTML error
    page, with the security headers it sets. *)
Definition error_headers : list (string * string) :=
  [("Content-Security-Policy", "default-src 'none'");
   ("X-Content-Type-Options", "nosniff");
   ("Content-Type", "text/html; charset=utf-8")].

(** The Express [app]: [express.json()], whose error goes straight to
    the final handler, then [cors_routes]. *)
Definition http_app (route_matches : string -> string -> bool) (meth path : string)
    (b : req_body) : M (option http_response) :=
  match json_parser b with
  | inl st => ret (Some (mkHttp st error_headers (BodyHtmlError st)))
  | inr body => cors_routes route_matches meth path body
  end.

(** [POST /] always answers. *)
Lemma post_root_total (body : jsval) (w : world) (s : st) :
  exists r s', post_root body w s = (Ok r, s').
Proof.
  unfold post_root, catch, bind, ret.
  destruct (handleRequest body w s) as [[r|e] s']; eauto.
Qed.

(** X13: [POST /] always answers a well-formed JSON-RPC envelope: with
    status 200 exactly when the body is neither [null] nor [undefined];
    otherwise with status 500, the error [-32603] and id [null], before
    any outbound request. *)
Theorem post_root_shape (body : jsval) (w : world) (s : st) :
  exists code r s', post_root body w s = (Ok (code, r), s') /\ response_shape r = true /\
    (code = 200 <-> nullish body = false) /\
    (nullish body = true -> r = error_resp (-32603) "Internal error" JNull /\ s' = s).
Proof.
  destruct (nullish body) eqn:Hn.
  - exists 500, (error_resp (-32603) "Internal error" JNull), s.
    unfold post_root, catch, bind. rewrite (handleRequest_nullish body w s Hn).
    destruct body; try discriminate; repeat split; try reflexivity; discriminate.
  - destruct (handleRequest_form body w s Hn) as (r & s' & Hr & Hf).
    exists 200, r, s'. unfold post_root, catch, bind. rewrite Hr.
    split; [reflexivity|]. split; [exact (resp_form_shape _ _ Hf)|].
    split; [tauto | discriminate].
Qed.

(** X14: the application never fails. When [express.json()] rejects the
    body (malformed JSON, a JSON primitive, more than 100kb, an
    unreadable body), the request, whatever its method and path
    ([OPTIONS] included), is answered by Express's error page with the
    parser's status, without the CORS headers and without outbound
    requests. Otherwise every response it sends carries the three CORS
    headers, and an [OPTIONS] request, on any path, is answered 200
    before any route runs, with the state unchanged. *)
Theorem app_cors (route_matches : string -> string -> bool) (meth path : string)
    (b : req_body) (w : world) (s : st) :
  exists o s', http_app route_matches meth path b w s = (Ok o, s') /\
    (forall st, json_parser b = inl st ->
       o = Some (mkHttp st error_headers (BodyHtmlError st)) /\ s' = s /\
       ~ In "Access-Control-Allow-Origin" (map fst error_headers)) /\
    (forall body, json_parser b = inr body ->
       (forall resp, o = Some resp -> http_headers resp = cors_headers) /\
       (meth = "OPTIONS" -> o = Some (mkHttp 200 cors_headers (BodyText "OK")) /\ s' = s)).
Proof.
  unfold http_app.
  destruct (json_parser b) as [st|body] eqn:Hb.
  - do 2 eexists. split; [reflexivity|]. split.
    + intros st' Hst. injection Hst as <-. split; [reflexivity|]. split; [reflexivity|].
      simpl. intuition discriminate.
    + intros body Hbody. discriminate.
  - assert (Hc : exists o s', cors_routes route_matches meth path body w s = (Ok o, s') /\
              (forall resp, o = Some resp -> http_headers resp = cors_headers) /\
              (meth = "OPTIONS" -> o = Some (mkHttp 200 cors_headers (BodyText "OK")) /\ s' = s)).
    { unfold cors_routes.
      destruct (String.eqb_spec meth "OPTIONS") as [->|Hm].
      - do 2 eexists. split; [reflexivity|]. split; [intros r Hr; now inversion Hr | auto].
      - destruct (String.eqb meth "POST" && route_matches "/" path).
        + destruct (post_root_total body w s) as (r & s' & Hp).
          unfold bind at 1. rewrite Hp.
          do 2 eexists. split; [reflexivity|].
          split; [intros x Hx; now inversion Hx | intros Hx; contradiction].
        + destruct ((String.eqb meth "GET" || String.eqb meth "HEAD")
                    && route_matches "/health" path);
            (do 2 eexists; split; [reflexivity|];
             split; [intros x Hx; now inversion Hx | intros Hx; contradiction]). }
    destruct Hc as (o & s' & Hr & Hh & Ho).
    exists o, s'. split; [exact Hr|]. split.
    + intros st Hst. discriminate.
    + intros body' Hbody. injection Hbody as <-. split; assumption.
Qed.

(* ------------------------------------------------------------------ *)
(** ** The tools registered on the [McpServer] (stdio transport)

    The SDK validates [arguments] against the zod [inputSchema] before it
    calls a handler; the handlers below take the validated values. The
    zod combinators used are modelled on JSON inputs: [z.number()]
    accepts a number, [.optional()] also [undefined], [.default(d)]
    turns [undefined] into [d], and [z.object] needs an object. *)

Definition z_number (v : jsval) : option Z :=
  match v with JNum n => Some n | _ => None end.

Definition z_default {A} (p : jsval -> option A) (d : A) (v : jsval) : option A :=
  match v with JUndef => Some d | _ => p v end.

(** [{ userId: z.number(), cursusId: z.number().default(21) }] *)
Definition parse_cursus_level_args (args : jsval) : option (Z * Z) :=
  match args with
  | JObj _ =>
      match z_number (fld args "userId"), z_default z_number 21 (fld args "cursusId") with
      | Some userId, Some cursusId => Some (userId, cursusId)
      | _, _ => None
      end
  | _ => None
  end.

(** The [getCursusLevel] handler of [server.registerTool]: the text of
    its content item. *)
Definition mcp_getCursusLevel (userId cursusId : Z) : M jsval :=
  cursusUsers <- apiRequest ("/v2/users/" ++ str (JNum userId)
                             ++ "/cursus_users?filter[cursus_id]=" ++ str (JNum cursusId)) ;;
  len <- prop cursusUsers "length" ;;
  if negb (truthy len) then ret (JStr "User not enrolled in this cursus.")
  else
    first <- prop cursusUsers "0" ;;
    level <- prop first "level" ;;
    ret (JStr ("Level " ++ str level ++ " in cursus " ++ str (JNum cursusId))).





(** X15: on the stdio transport, [getCursusLevel] uses the validated
    [cursusId] as it is, [0] included, and [21] only when it is absent;
    the one GET and the text name that cursus. *)
Theorem mcp_getCursusLevel_cursus (fs : list (string * jsval)) (userId : Z) (w : world) (s : st) :
  fld (JObj fs) "userId" = JNum userId ->
  forall cursusId : Z,
  (fld (JObj fs) "cursusId" = JNum cursusId \/
   (cursusId = 21 /\ fld (JObj fs) "cursusId" = JUndef)) ->
  parse_cursus_level_args (JObj fs) = Some (userId, cursusId) /\
  emits (fun e => is_api_get e = true ->
                  exists b, e = EvApiGet (API_BASE ++ cursus_path (str (JNum userId))
                                                               (str (JNum cursusId))) b)
        (mcp_getCursusLevel userId cursusId) w s /\
  match fst (mcp_getCursusLevel userId cursusId w s) with
  | Ok t => cursus_text (str (JNum cursusId)) t
  | Throw _ => True
  end.
Proof.
  intros Hu cursusId Hc. split.
  - unfold parse_cursus_level_args. rewrite Hu.
    destruct Hc as [-> | [-> ->]]; reflexivity.
  - pose proof (apiRequest_emits (cursus_path (str (JNum userId)) (str (JNum cursusId))) w s)
      as (evs & Ht & Hf).
    unfold emits, mcp_getCursusLevel, bind, prop, ret.
    fold (cursus_path (str (JNum userId)) (str (JNum cursusId))).
    destruct (apiRequest (cursus_path (str (JNum userId)) (str (JNum cursusId))) w s)
      as [[cu|ex] s1]; simpl in Ht.
    + destruct (get_prop cu "length") as [len|]; [destruct (truthy len)|]; simpl negb; cbv iota.
      * destruct (get_prop cu "0") as [first|]; [|split; [eauto | exact I]].
        destruct (get_prop first "level") as [level|]; [|split; [eauto | exact I]].
        split; [eauto|]. right. eexists. reflexivity.
      * split; [eauto|]. left. reflexivity.
      * split; [eauto | exact I].
    + split; [eauto | exact I].
Qed.

Definition zero_cursus_args : list (string * jsval) := [("userId", JNum 7); ("cursusId", JNum 0)].

Lemma mcp_getCursusLevel_cursus_witness :
  parse_cursus_level_args (JObj zero_cursus_args) = Some (7, 0).
Proof.
  exact (proj1 (mcp_getCursusLevel_cursus zero_cursus_args 7 w_ok s_init eq_refl 0
                  (or_introl eq_refl))).
Defined.






(** The tools registered with [server.registerTool], in order. *)
Definition registered_tools : list string :=
  ["searchUsers"; "getCursusLevel"; "getUserProjects"; "getCoalition"; "getCampusUsers";
   "getBalances"; "getClusters"; "getLocations"; "getAttachments"; "getAttachment";
   "getProjects"; "getProject"; "getMyProjects"; "getAccreditations"; "getAccreditation"].

(** The fixed URIs of the resources registered with
    [server.registerResource] (the four templates aside). *)
Definition registered_static_resources : list string :=
  ["42://me"; "42://campus"; "42://attachments"; "42://projects"; "42://me/projects";
   "42://accreditations"].

Lemma resources_list_uris :
  map (fun r => fld r "uri") resources_list =
  map JStr ["42://me"; "42://campus"; "42://attachments"; "42://projects"; "42://me/projects"].
Proof. reflexivity. Qed.

Local Ltac reg_case n x :=
  destruct (String.eqb_spec n x) as [->|?];
  [intros _; split; [simpl; tauto | split; discriminate]|].

(** X17: the HTTP transport serves a strict subset of what the stdio
    server registers: [tools/call] dispatches exactly the registered
    tools other than [getAccreditations] and [getAccreditation], and
    [resources/list] lists exactly the registered fixed-URI resources
    other than [42://accreditations]. *)
Theorem http_subset_of_registered :
  (forall n : string, tool_case (JStr n) <> None <->
     In n registered_tools /\ n <> "getAccreditations" /\ n <> "getAccreditation") /\
  (forall u : string, In (JStr u) (map (fun r => fld r "uri") resources_list) <->
     In u registered_static_resources /\ u <> "42://accreditations").
Proof.
  split.
  - intro n. split.
    + unfold tool_case.
      reg_case n "searchUsers". reg_case n "getCursusLevel".
      reg_case n "getUserProjects". reg_case n "getCoalition".
      reg_case n "getCampusUsers". reg_case n "getBalances".
      reg_case n "getClusters". reg_case n "getLocations".
      reg_case n "getAttachments". reg_case n "getAttachment".
      reg_case n "getProjects". reg_case n "getProject".
      reg_case n "getMyProjects".
      intro H; exfalso; apply H; reflexivity.
    + intros (Hin & H1 & H2). simpl in Hin.
      repeat (destruct Hin as [<- | Hin]; [discriminate || contradiction|]).
      contradiction.
  - intro u. rewrite resources_list_uris. split.
    + intro Hin. simpl in Hin.
      repeat (destruct Hin as [Hin | Hin];
              [injection Hin as <-; split; [simpl; tauto | discriminate]|]).
      contradiction.
    + intros (Hin & H1). simpl in Hin.
      repeat (destruct Hin as [<- | Hin]; [simpl; tauto || contradiction|]).
      contradiction.
Qed.
